(** * StudyFlow: exam parsing, grading and attempt tracking

    A shallow embedding of the exam subsystem of the StudyFlow backend
    ([backend/exam_generator.py] and the exam endpoints of
    [backend/main.py]) together with the properties its specification
    states about it.

    Conventions of the embedding.
    - A Python [str] is a list of code points ([text]); [len] is [length].
      Case mapping ([str.lower], [str.upper]) is the one of the letters
      A-Z / a-z; other code points are left as they are.
    - Binary64 arithmetic is the reference semantics of [SpecFloat] at
      precision 53 and maximal exponent 1024.
    - A Python [dict] is a [gmap]; an exception is an error value. *)

From Stdlib Require Import ZArith NArith List Bool Lia Ascii String DecimalString.
From Stdlib Require Import Floats.SpecFloat.
From stdpp Require Import base option list gmap strings fin_maps.

Local Open Scope Z_scope.

(** ** Python strings *)

Module Py.

Definition text := list N.

(** A literal of the source, as code points. *)
Definition lit (s : string) : text :=
  map N_of_ascii (list_ascii_of_string s).

(** [str.isspace] of one code point; also the class [\s] of [re] on str
    patterns and the characters removed by [str.strip]. *)
Definition is_space (c : N) : bool :=
  ((9 <=? c) && (c <=? 13) || (28 <=? c) && (c <=? 32) || (c =? 133) ||
   (c =? 160) || (c =? 5760) || (8192 <=? c) && (c <=? 8202) ||
   (c =? 8232) || (c =? 8233) || (c =? 8239) || (c =? 8287) ||
   (c =? 12288))%N.

Definition lower_char (c : N) : N :=
  if ((65 <=? c) && (c <=? 90))%N then (c + 32)%N else c.

Definition upper_char (c : N) : N :=
  if ((97 <=? c) && (c <=? 122))%N then (c - 32)%N else c.

Definition lower (s : text) : text := map lower_char s.
Definition upper (s : text) : text := map upper_char s.

Fixpoint lstrip (s : text) : text :=
  match s with
  | c :: s' => if is_space c then lstrip s' else s
  | [] => []
  end.

Definition rstrip (s : text) : text := rev (lstrip (rev s)).

Definition strip (s : text) : text := rstrip (lstrip s).

(** [prefix in s] at the head of [s]: [s.startswith(prefix)]. *)
Fixpoint startswith (s prefix : text) : bool :=
  match prefix, s with
  | [], _ => true
  | p :: prefix', c :: s' => (p =? c)%N && startswith s' prefix'
  | _ :: _, [] => false
  end.

(** [needle in s] for strings. *)
Fixpoint contains (s needle : text) : bool :=
  startswith s needle ||
  match s with
  | [] => false
  | _ :: s' => contains s' needle
  end.

(** [c in s] for a separator of one character. *)
Definition has_char (c : N) (s : text) : bool := existsb (N.eqb c) s.

Definition text_eqb (a b : text) : bool := bool_decide (a = b).

(** [s.split(sep)] for a separator of one character: the pieces between
    the occurrences, always at least one piece. *)
Fixpoint split (sep : N) (s : text) : list text :=
  match s with
  | [] => [[]]
  | c :: s' =>
      if (c =? sep)%N then [] :: split sep s'
      else match split sep s' with
           | p :: ps => (c :: p) :: ps
           | [] => [[c]]
           end
  end.

(** [s.split(sep, 1)[1]] when the separator occurs: what follows its
    first occurrence. *)
Fixpoint after_first (sep : N) (s : text) : option text :=
  match s with
  | [] => None
  | c :: s' => if (c =? sep)%N then Some s' else after_first sep s'
  end.

(** [s.split()]: the maximal runs of characters that are not white space.
    [cur] is the run being read, in reverse. *)
Fixpoint split_ws_aux (s : text) (cur : text) : list text :=
  match s with
  | [] => match cur with [] => [] | _ => [rev cur] end
  | c :: s' =>
      if is_space c then
        match cur with
        | [] => split_ws_aux s' []
        | _ => rev cur :: split_ws_aux s' []
        end
      else split_ws_aux s' (c :: cur)
  end.

Definition split_ws (s : text) : list text := split_ws_aux s [].

(** [str(n)] of an integer. *)
Definition str_int (z : Z) : text := lit (NilZero.string_of_int (Z.to_int z)).

(** [str(b)] of a boolean. *)
Definition str_bool (b : bool) : text :=
  if b then lit "True" else lit "False".

(** The elements of [set(l)]: each value once. *)
Definition set_of (l : list text) : list text := remove_dups l.

(** [len(a.intersection(b))] of two sets given by their elements. *)
Definition intersection (a b : list text) : list text :=
  filter (fun w => w ∈ b) a.

End Py.

(** ** Binary64 *)

Module Float64.

Definition prec : Z := 53.
Definition emax : Z := 1024.

Definition float := spec_float.

(** [float(n)] of an integer. *)
Definition of_int (n : Z) : float := binary_normalize prec emax n 0 false.

Definition mul (x y : float) : float := SFmul prec emax x y.
Definition div (x y : float) : float := SFdiv prec emax x y.

(** The literal [0.2] is the double [0x1.999999999999ap-3]. *)
Definition f0_2 : float := S754_finite false 7205759403792794 (-55).

(** The literal [0.3] is the double [0x1.3333333333333p-2]. *)
Definition f0_3 : float := S754_finite false 5404319552844595 (-54).

(** [k >= x] of an integer and a float: Python compares the exact values. *)
Definition int_ge (k : Z) (x : float) : bool :=
  match x with
  | S754_zero _ => 0 <=? k
  | S754_finite s m e =>
      let v := cond_Zopp s (Z.pos m) in
      if 0 <=? e then v * 2 ^ e <=? k else v <=? k * 2 ^ (- e)
  | S754_infinity s => s
  | S754_nan => false
  end.

(** The integer nearest to [m / 2^k], a tie going to the even one. *)
Definition round_half_even_shift (m : Z) (k : Z) : Z :=
  let q := m / 2 ^ k in
  let r := m mod 2 ^ k in
  match 2 * r ?= 2 ^ k with
  | Lt => q
  | Gt => q + 1
  | Eq => if Z.even q then q else q + 1
  end.

(** [round(x)] with one argument; [None] is the [OverflowError] or
    [ValueError] of an infinity or a NaN. *)
Definition round (x : float) : option Z :=
  match x with
  | S754_zero _ => Some 0
  | S754_finite s m e =>
      Some (cond_Zopp s
              (if 0 <=? e then Z.pos m * 2 ^ e
               else round_half_even_shift (Z.pos m) (- e)))
  | _ => None
  end.

(** The record of a right shift of [P] by [j] bits: the quotient, and the
    remainder as the round bit (at least a half) and the sticky bit
    (neither nothing nor a half). *)
Definition shr_inv (P j : Z) (mrs : shr_record) : Prop :=
  0 <= shr_m mrs /\
  exists rem, P = shr_m mrs * 2 ^ j + rem /\ 0 <= rem < 2 ^ j /\
    (shr_r mrs = true <-> 2 ^ j <= 2 * rem) /\
    (shr_s mrs = true <-> rem <> 0 /\ 2 * rem <> 2 ^ j).

(** A float that is a zero, or finite with an exponent in [[lo, hi]]. *)
Definition fin_bound (lo hi : Z) (f : float) : Prop :=
  match f with
  | S754_zero _ => True
  | S754_finite _ m e => Zdigits2 (Z.pos m) <= 54 /\ lo <= e <= hi
  | _ => False
  end.

End Float64.

(** ** Questions, answers and exam records *)

Import Py.

(** A question record, by its ['type'] key. *)
Inductive question :=
  | multiple_choice (question : text) (options : gmap N text)
                    (correct_answer : text) (explanation : text)
  | true_false (question : text) (correct_answer : bool) (explanation : text)
  | short_answer (question : text) (sample_answer : text) (key_points : text).

(** A submitted answer, a JSON value: [null] or an absent key, a boolean,
    an integer or a string (a float, a list or an object as an answer is
    not modelled). *)
Inductive answer :=
  | ANone
  | ABool (b : bool)
  | AInt (z : Z)
  | AStr (s : text).

(** ** The response parser ([exam_generator.py]) *)

Module ExamGenerator.

Definition NL : N := 10.
Definition COLON : N := 58.

(** [re.match(r'\s*Q:\s*', s)]: the number of characters the marker takes
    at the head of [s]. The white space is taken greedily; no shorter run
    can be followed by [Q:]. *)
Definition marker_len (s : text) : option nat :=
  let s1 := lstrip s in
  if startswith s1 (lit "Q:") then
    Some (length s - length (lstrip (drop 2 s1)))%nat
  else None.

(** [re.split(r'\n\s*Q:\s*', text)]: the pieces between the leftmost
    matches, which do not overlap. [skip] counts the characters of the
    current match still to pass, [cur] is the piece being read, reversed. *)
Fixpoint re_split_aux (s : text) (skip : nat) (cur : text) : list text :=
  match s with
  | [] => [rev cur]
  | c :: s' =>
      match skip with
      | S k => re_split_aux s' k cur
      | O =>
          if (c =? NL)%N then
            match marker_len s' with
            | Some n => rev cur :: re_split_aux s' n []
            | None => re_split_aux s' 0 (c :: cur)
            end
          else re_split_aux s' 0 (c :: cur)
      end
  end.

Definition re_split_Q (s : text) : list text := re_split_aux s 0 [].

(** [sections[1:]] *)
Definition sections (s : text) : list text := tail (re_split_Q s).

(** [line.split(':', 1)[1].strip()] of a line that starts with a marker
    ending in a colon. *)
Definition field_value (line : text) : text :=
  strip (default [] (after_first COLON line)).

(** [re.match(r'^[A-D]\)', line)] *)
Definition is_option_line (line : text) : bool :=
  match line with
  | c :: p :: _ => (65 <=? c)%N && (c <=? 68)%N && (p =? 41)%N
  | _ => false
  end.

(** The variables of the loop over the lines of a multiple choice block. *)
Record mc_state := {
  mc_options : gmap N text;
  mc_correct : option text;
  mc_explanation : text
}.

(** One line of a multiple choice block; [None] is the [IndexError] of an
    empty value after [CORRECT:]. *)
Definition mc_line (st : mc_state) (raw : text) : option mc_state :=
  let line := strip raw in
  if is_option_line line then
    match line with
    | letter :: _ =>
        Some {| mc_options := <[letter := strip (drop 2 line)]> (mc_options st);
                mc_correct := mc_correct st;
                mc_explanation := mc_explanation st |}
    | [] => Some st
    end
  else if startswith line (lit "CORRECT:") then
    match upper (field_value line) with
    | c :: _ => Some {| mc_options := mc_options st;
                        mc_correct := Some [c];
                        mc_explanation := mc_explanation st |}
    | [] => None
    end
  else if startswith line (lit "EXPLANATION:") then
    Some {| mc_options := mc_options st;
            mc_correct := mc_correct st;
            mc_explanation := field_value line |}
  else Some st.

Fixpoint mc_lines (st : mc_state) (lines : list text) : option mc_state :=
  match lines with
  | [] => Some st
  | l :: ls =>
      match mc_line st l with
      | Some st' => mc_lines st' ls
      | None => None
      end
  end.

(** The body of the [try] for one section: [inr] is an exception, which
    the [except] clause turns into [continue]; [inl None] a block that is
    not kept. *)
Definition mc_section (section : text) : option question + unit :=
  let lines := split NL (strip section) in
  let question_text := strip (hd [] lines) in
  match mc_lines {| mc_options := ∅; mc_correct := None; mc_explanation := [] |}
                 (tail lines) with
  | None => inr tt
  | Some st =>
      match mc_correct st with
      | Some correct =>
          if negb (text_eqb question_text []) && (size (mc_options st) =? 4)%nat
          then inl (Some (multiple_choice question_text (mc_options st)
                                          correct (mc_explanation st)))
          else inl None
      | None => inl None
      end
  end.

(** [questions] after the loop: the kept records, in order. *)
Definition collect (parse : text -> option question + unit)
    (secs : list text) : list question :=
  omap (fun s => match parse s with inl r => r | inr _ => None end) secs.

Definition _parse_multiple_choice (s : text) : list question :=
  collect mc_section (sections s).

(** The variables of the loop over the lines of a true/false block. *)
Definition tf_line (st : option bool * text) (raw : text) : option bool * text :=
  let line := strip raw in
  if startswith line (lit "ANSWER:") then
    (Some (contains (upper (field_value line)) (lit "TRUE")), snd st)
  else if startswith line (lit "EXPLANATION:") then
    (fst st, field_value line)
  else st.

Definition tf_section (section : text) : option question + unit :=
  let lines := split NL (strip section) in
  let question_text := strip (hd [] lines) in
  let st := fold_left tf_line (tail lines) (None, []) in
  match fst st with
  | Some answer =>
      if negb (text_eqb question_text [])
      then inl (Some (true_false question_text answer (snd st)))
      else inl None
  | None => inl None
  end.

Definition _parse_true_false (s : text) : list question :=
  collect tf_section (sections s).

(** The variables of the loop over the lines of a short answer block:
    [sample_answer] and [key_points]. *)
Definition sa_line (st : text * text) (raw : text) : text * text :=
  let line := strip raw in
  if startswith line (lit "SAMPLE_ANSWER:") then (field_value line, snd st)
  else if startswith line (lit "KEY_POINTS:") then (fst st, field_value line)
  else st.

Definition sa_section (section : text) : option question + unit :=
  let lines := split NL (strip section) in
  let question_text := strip (hd [] lines) in
  let st := fold_left sa_line (tail lines) ([], []) in
  if negb (text_eqb question_text []) && negb (text_eqb (fst st) [])
  then inl (Some (short_answer question_text (fst st) (snd st)))
  else inl None.

Definition _parse_short_answer (s : text) : list question :=
  collect sa_section (sections s).

End ExamGenerator.

(** ** Exam records as persisted *)

Module Attempt.
Record t := {
  timestamp : text;
  score : Z;
  total : Z;
  percentage : Z
}.
End Attempt.

(** The values an exam record holds under its keys. *)
Inductive value :=
  | VNone
  | VInt (z : Z)
  | VStr (s : text)
  | VInts (l : list Z)
  | VStrs (l : list text)
  | VQuestions (qs : list question)
  | VAttempts (l : list Attempt.t).

(** One entry of the ['results'] list of a grading response. *)
Module Result.
Record t := {
  question_index : nat;
  correct : bool;
  user_answer : answer;
  correct_answer : answer;
  explanation : text;
  key_points : option text
}.
End Result.

Module Response.
Record t := {
  score : Z;
  total : Z;
  percentage : Z;
  results : list Result.t;
  best_score : Z;
  attempt_number : Z;
  improved : bool
}.
End Response.

Inductive http_error :=
  | Http404
  | Http500.

(** ** Grading and attempt tracking ([main.py]) *)

Module Main.

(** Truth value of a submitted answer in a condition. *)
Definition truthy (a : answer) : bool :=
  match a with
  | ANone => false
  | ABool b => b
  | AInt z => negb (z =? 0)
  | AStr s => negb (text_eqb s [])
  end.

(** [str(user_answer)] *)
Definition str (a : answer) : text :=
  match a with
  | ANone => lit "None"
  | ABool b => str_bool b
  | AInt z => str_int z
  | AStr s => s
  end.

(** [str(idx)], the key of a question in the submission. *)
Definition str_index (idx : nat) : string :=
  NilZero.string_of_uint (Nat.to_uint idx).

Definition grade_true_false (correct_answer : bool) (user_answer : answer) : bool :=
  match user_answer with
  | ABool b => Bool.eqb b correct_answer
  | _ => text_eqb (lower (str user_answer)) (lower (str_bool correct_answer))
  end.

Definition grade_multiple_choice (correct_answer : text) (user_answer : answer) : bool :=
  text_eqb (upper (str user_answer)) (upper correct_answer).

(** [',', ';', '•', '-'] *)
Definition separators : list N := [44; 59; 8226; 45]%N.

(** The loop over the separators, left at the first one found in
    [key_points]. *)
Fixpoint split_key_points (seps : list N) (key_points : text) : list text :=
  match seps with
  | [] => []
  | separator :: seps' =>
      if has_char separator key_points then
        filter (fun p => p <> []) (map strip (split separator key_points))
      else split_key_points seps' key_points
  end.

(** [key_point_list] after the filter on the length. *)
Definition key_point_list (key_points : text) : list text :=
  filter (fun p => (3 < length p)%nat)
         (if text_eqb key_points [] then []
          else split_key_points separators key_points).

(** [matches]: the key points found in the lowered answer. *)
Definition matches (points : list text) (user_lower : text) : list text :=
  filter (fun point => contains user_lower (lower point) = true) points.

Definition has_key_points (points : list text) (user_lower : text) : bool :=
  match points with
  | [] => false
  | _ => Float64.int_ge (Z.of_nat (length (matches points user_lower)))
           (Float64.mul (Float64.of_int (Z.of_nat (length points))) Float64.f0_3)
  end.

Definition sample_words (correct_lower : text) : list text :=
  set_of (split_ws correct_lower).

Definition overlap (correct_lower user_lower : text) : nat :=
  length (intersection (sample_words correct_lower) (set_of (split_ws user_lower))).

Definition grade_short_answer (sample_answer key_points : text)
    (user_answer : answer) : bool :=
  if truthy user_answer && negb (text_eqb sample_answer []) then
    let user_lower := strip (lower (str user_answer)) in
    let correct_lower := strip (lower sample_answer) in
    if (length user_lower <? 10)%nat then false
    else
      Float64.int_ge (Z.of_nat (overlap correct_lower user_lower))
        (Float64.mul
           (Float64.of_int (Z.of_nat (length (sample_words correct_lower))))
           Float64.f0_2)
      || has_key_points (key_point_list key_points) user_lower
  else false.

(** [is_correct] for one question. *)
Definition is_correct (q : question) (user_answer : answer) : bool :=
  match q with
  | true_false _ correct_answer _ => grade_true_false correct_answer user_answer
  | multiple_choice _ _ correct_answer _ =>
      grade_multiple_choice correct_answer user_answer
  | short_answer _ sample_answer key_points =>
      grade_short_answer sample_answer key_points user_answer
  end.

(** The entry appended to [results] for the question at [idx]. *)
Definition result_of (idx : nat) (q : question) (user_answer : answer) : Result.t :=
  {| Result.question_index := idx;
     Result.correct := is_correct q user_answer;
     Result.user_answer := user_answer;
     Result.correct_answer :=
       match q with
       | short_answer _ sample_answer _ => AStr sample_answer
       | true_false _ correct_answer _ => ABool correct_answer
       | multiple_choice _ _ correct_answer _ => AStr correct_answer
       end;
     Result.explanation :=
       match q with
       | short_answer _ _ _ => []
       | true_false _ _ explanation => explanation
       | multiple_choice _ _ _ explanation => explanation
       end;
     Result.key_points :=
       match q with
       | short_answer _ _ key_points => Some key_points
       | _ => None
       end |}.

(** The loop over [enumerate(questions)], from index [idx]: [results] and
    [correct_count] are threaded through. *)
Fixpoint grade_from (idx : nat) (questions : list question)
    (user_answers : gmap string answer) (results : list Result.t)
    (correct_count : Z) : list Result.t * Z :=
  match questions with
  | [] => (results, correct_count)
  | q :: qs =>
      let user_answer := default ANone (user_answers !! str_index idx) in
      let r := result_of idx q user_answer in
      grade_from (S idx) qs user_answers (results ++ [r])
        (if Result.correct r then correct_count + 1 else correct_count)
  end.

Definition grade (questions : list question) (user_answers : gmap string answer)
    : list Result.t * Z :=
  grade_from 0 questions user_answers [] 0.

(** [round((correct_count / total) * 100) if total > 0 else 0]; [None] is
    an exception of [round]. The quotient of two integers below [2^53] is
    the quotient of the two doubles. *)
Definition percentage_of (correct_count total : Z) : option Z :=
  if 0 <? total then
    Float64.round
      (Float64.mul (Float64.div (Float64.of_int correct_count) (Float64.of_int total))
                   (Float64.of_int 100))
  else Some 0.

(** [max(l)] of a list that is not empty. *)
Definition list_max (x : Z) (l : list Z) : Z := fold_left Z.max l x.

(** [max([a['percentage'] for a in attempts]) if attempts else percentage] *)
Definition best_of (attempts : list Attempt.t) (percentage : Z) : Z :=
  match map Attempt.percentage attempts with
  | [] => percentage
  | p :: ps => list_max p ps
  end.

(** [exam_id] with the extension [.json]. *)
Definition file_name (exam_id : string) : string :=
  let n := String.length exam_id in
  if String.eqb (substring (n - 5) 5 exam_id) ".json" then exam_id
  else (exam_id ++ ".json")%string.

(** The list under ['attempts'], [[]] when the key is absent; [None] when
    what is stored there is not a list of attempts. *)
Definition attempts_of (exam_data : gmap string value) : option (list Attempt.t) :=
  match exam_data !! "attempts" with
  | None => Some []
  | Some (VAttempts l) => Some l
  | Some _ => None
  end.

(** [POST /api/exams/{exam_id}/submit]. [files] is the exams directory,
    [now] the value of [datetime.now().isoformat()], [answers] the body of
    the request. An error leaves the directory as it is. *)
Definition submit_exam (now : text) (exam_id : string)
    (answers : gmap string (gmap string answer))
    (files : gmap string (gmap string value))
    : http_error + Response.t * gmap string (gmap string value) :=
  let exam_id := file_name exam_id in
  match files !! exam_id with
  | None => inl Http404
  | Some exam_data =>
      match exam_data !! "questions" with
      | Some (VQuestions questions) =>
          let user_answers := default ∅ (answers !! "answers") in
          let '(results, correct_count) := grade questions user_answers in
          let total := Z.of_nat (length questions) in
          match percentage_of correct_count total, attempts_of exam_data with
          | Some percentage, Some old =>
              let attempt :=
                {| Attempt.timestamp := now;
                   Attempt.score := correct_count;
                   Attempt.total := total;
                   Attempt.percentage := percentage |} in
              let attempts := old ++ [attempt] in
              let best_score := best_of attempts percentage in
              let exam_data :=
                <["last_attempt" := VStr (Attempt.timestamp attempt)]>
                  (<["attempt_count" := VInt (Z.of_nat (length attempts))]>
                     (<["best_score" := VInt best_score]>
                        (<["attempts" := VAttempts attempts]> exam_data))) in
              inr ({| Response.score := correct_count;
                      Response.total := total;
                      Response.percentage := percentage;
                      Response.results := results;
                      Response.best_score := best_score;
                      Response.attempt_number := Z.of_nat (length attempts);
                      Response.improved :=
                        if (1 <? length attempts)%nat
                        then best_score <=? percentage else false |},
                   <[exam_id := exam_data]> files)
          | _, _ => inl Http500
          end
      | _ => inl Http500
      end
  end.

(** [DELETE /api/exams/{exam_id}/attempts] *)
Definition reset_exam_attempts (exam_id : string)
    (files : gmap string (gmap string value))
    : http_error + gmap string (gmap string value) :=
  let exam_id := file_name exam_id in
  match files !! exam_id with
  | None => inl Http404
  | Some exam_data =>
      let exam_data :=
        <["last_attempt" := VNone]>
          (<["attempt_count" := VInt 0]>
             (<["best_score" := VNone]>
                (<["attempts" := VAttempts []]> exam_data))) in
      inr (<[exam_id := exam_data]> files)
  end.

(** The record [generate_exam_endpoint] saves for a new exam. *)
Definition new_exam_data (exam_id exam_title course_code created_at provider : text)
    (all_questions : list question) (document_ids : list Z)
    (document_names : list text) : gmap string value :=
  <["document_names" := VStrs document_names]>
    (<["document_ids" := VInts document_ids]>
       (<["ai_model_used" := VStr provider]>
          (<["questions" := VQuestions all_questions]>
             (<["created_at" := VStr created_at]>
                (<["question_count" := VInt (Z.of_nat (length all_questions))]>
                   (<["exam_type" := VStr (lit "practice")]>
                      (<["course" := VStr course_code]>
                         (<["title" := VStr exam_title]>
                            (<["id" := VStr exam_id]> ∅))))))))).

End Main.

(** ** The grading rules in the words of the specification *)

Module Spec.

(** The rule of the parser for a true/false value: the token [TRUE]
    occurs in the string, whatever the case. *)
Definition reads_true (s : text) : bool := contains (upper s) (lit "TRUE").

(** True/false grading by the rule of the parser. *)
Definition true_false (correct_answer : bool) (user_answer : answer) : bool :=
  match user_answer with
  | ABool b => Bool.eqb b correct_answer
  | _ => Bool.eqb (reads_true (Main.str user_answer)) correct_answer
  end.





(** The set of the words of a text, lowered. *)
Definition words (s : text) : list text := remove_dups (split_ws (lower s)).

(** The words of the sample answer that are words of the answer. *)
Definition shared (sample answer : text) : list text :=
  filter (fun w => w ∈ words answer) (words sample).

(** Word-overlap path: the shared words are at least 20% of the words of
    the sample answer. *)
Definition word_overlap_path (sample answer : text) : bool :=
  (length (words sample) <=? 5 * length (shared sample answer))%nat.

(** A text made of white space. *)
Definition all_space (w : text) : Prop := Forall (fun c => is_space c = true) w.

(** A marker: a line break, white space, [Q:], white space. *)
Definition is_marker (sep : text) : Prop :=
  exists w1 w2, all_space w1 /\ all_space w2 /\
    sep = ExamGenerator.NL :: w1 ++ lit "Q:" ++ w2.

(** A text in which no line begins, after white space, with [Q:]. *)
Definition marker_free (b : text) : Prop :=
  forall x y, b = x ++ ExamGenerator.NL :: y -> startswith (lstrip y) (lit "Q:") = false.

Definition starts_nonspace (b : text) : Prop :=
  exists c r, b = c :: r /\ is_space c = false.

Definition ends_nonspace (b : text) : Prop :=
  forall y c, b = y ++ [c] -> is_space c = false.

(** The text of a block, between two markers: it begins and ends with a
    character that is not white space and holds no marker. *)
Definition block_text (b : text) : Prop :=
  starts_nonspace b /\ ends_nonspace b /\ marker_free b.

(** [marker_free], decided. *)
Fixpoint marker_free_b (b : text) : bool :=
  match b with
  | [] => true
  | c :: b' =>
      (if (c =? ExamGenerator.NL)%N then negb (startswith (lstrip b') (lit "Q:"))
       else true) && marker_free_b b'
  end.

(** [block_text], decided. *)
Definition block_text_b (b : text) : bool :=
  match b, rev b with
  | c :: _, c' :: _ => negb (is_space c) && negb (is_space c') && marker_free_b b
  | _, _ => false
  end.

(** A response: a preamble, then blocks, each after its marker. *)
Definition response (pre : text) (blocks : list (text * text)) : text :=
  pre ++ concat (map (fun sb => sb.1 ++ sb.2) blocks).

(** The blocks a parser keeps. *)
Definition keeps (parse : text -> option question + unit) (b : text) : bool :=
  match parse b with
  | inl (Some _) => true
  | _ => false
  end.

(** The letters of the options are among A, B, C and D. *)
Definition option_letters (o : gmap N text) : Prop :=
  forall k, is_Some (o !! k) -> (65 <= k <= 68)%N.

(** [b] is the maximum of the list [l]. *)
Definition is_max (b : Z) (l : list Z) : Prop :=
  b ∈ l /\ forall x, x ∈ l -> x <= b.

End Spec.

(** ** Sequences of requests *)

Module Run.

Import Main.

(** The results flagged correct. *)
Definition flagged (rs : list Result.t) : list Result.t :=
  filter (fun r => Result.correct r = true) rs.

(** The percentage a submission gets on a list of questions. *)
Definition percentage_for (questions : list question)
    (answers : gmap string (gmap string answer)) : option Z :=
  percentage_of (snd (grade questions (default ∅ (answers !! "answers"))))
                (Z.of_nat (length questions)).

(** Submissions one after the other against one exam, each with the time
    it is made at. *)
Fixpoint submit_all (exam_id : string)
    (subs : list (text * gmap string (gmap string answer)))
    (files : gmap string (gmap string value))
    : http_error + gmap string (gmap string value) :=
  match subs with
  | [] => inr files
  | (now, answers) :: subs' =>
      match submit_exam now exam_id answers files with
      | inl err => inl err
      | inr (_, files') => submit_all exam_id subs' files'
      end
  end.

(** The keys of a record that hold its attempt history. *)
Definition history_keys : list string :=
  ["attempts"; "best_score"; "attempt_count"; "last_attempt"]%string.

(** The percentages of the attempts of a record. *)
Definition percentages (exam_data : gmap string value) : list Z :=
  map Attempt.percentage (default [] (attempts_of exam_data)).

(** A record whose best score is the maximum of its attempts, when it has
    attempts. *)
Definition history_consistent (exam_data : gmap string value) : Prop :=
  match attempts_of exam_data with
  | Some [] => True
  | Some l =>
      exists b, exam_data !! "best_score" = Some (VInt b) /\
                Spec.is_max b (map Attempt.percentage l)
  | None => False
  end.

End Run.

(** ** Data for the examples *)

Module Examples.

Import Main.

(** Nine true/false questions whose statement is true. *)
Definition questions9 : list question :=
  replicate 9 (true_false (lit "Water boils at 100 C at sea level") true
                          (lit "Standard pressure")).

(** The record of a new exam over [questions9]. *)
Definition exam9 : gmap string value :=
  new_exam_data (lit "CS101_exam_20260101_120000_ab12cd34")
    (lit "CS101 - notes.pdf") (lit "CS101") (lit "2026-01-01T12:00:00")
    (lit "ollama") questions9 [1] [lit "notes.pdf"].

Definition files9 : gmap string (gmap string value) :=
  {[ "CS101_exam_20260101_120000_ab12cd34.json"%string := exam9 ]}.

(** A body that answers the first [n] of nine questions with [true] and
    the others with [false]. *)
Definition body9 (n : nat) : gmap string (gmap string answer) :=
  {[ "answers"%string :=
       list_to_map (imap (fun i b => (str_index i, ABool b))
                         (replicate n true ++ replicate (9 - n) false)) ]}.

Definition nl : string := String (ascii_of_nat 10) EmptyString.

(** A block in the format the prompt asks for, correct letter [B]. *)
Definition block_B : string :=
  ("Q: Which organelle produces most of the ATP of a cell?" ++ nl ++
   "A) Ribosome" ++ nl ++
   "B) Mitochondrion" ++ nl ++
   "C) Nucleus" ++ nl ++
   "D) Golgi apparatus" ++ nl ++
   "CORRECT: B" ++ nl ++
   "EXPLANATION: Oxidative phosphorylation takes place there.")%string.

(** The same block with a correct letter that is no option. *)
Definition block_E : string :=
  ("Q: Which organelle produces most of the ATP of a cell?" ++ nl ++
   "A) Ribosome" ++ nl ++
   "B) Mitochondrion" ++ nl ++
   "C) Nucleus" ++ nl ++
   "D) Golgi apparatus" ++ nl ++
   "CORRECT: E" ++ nl ++
   "EXPLANATION: None of the above.")%string.

(** A block without its [CORRECT:] line. *)
Definition block_malformed : string :=
  ("Q: Which organelle stores the genome?" ++ nl ++
   "A) Ribosome" ++ nl ++
   "B) Mitochondrion" ++ nl ++
   "C) Nucleus" ++ nl ++
   "D) Golgi apparatus")%string.

Definition block_tf : string :=
  ("Q: Mitochondria have their own DNA." ++ nl ++
   "ANSWER: TRUE" ++ nl ++
   "EXPLANATION: A small circular genome.")%string.

Definition block_sa : string :=
  ("Q: Explain how a cell produces ATP." ++ nl ++
   "SAMPLE_ANSWER: the mitochondria produces energy via respiration" ++ nl ++
   "KEY_POINTS: mitochondria, respiration, ATP")%string.

Definition preamble : string := "Here are the questions:"%string.

(** The marker between two blocks that a blank line separates, and the
    marker after a preamble. *)
Definition marker_blank : text := [10; 10; 81; 58; 32]%N.
Definition marker_line : text := [10; 81; 58; 32]%N.

(** A response of a preamble and three blocks, the second malformed. The
    blocks are taken after their [Q: ]. *)
Definition three_blocks : list (text * text) :=
  [(marker_line, drop 3 (lit block_B));
   (marker_blank, drop 3 (lit block_malformed));
   (marker_blank, drop 3 (lit block_B))].

(** The sample answer of the specification, of six words. *)
Definition sample_mito : text :=
  lit "the mitochondria produces energy via respiration".

(** A sample answer of seven words. *)
Definition sample_seven : text :=
  lit "the mitochondria produces chemical energy via respiration".

Definition now1 : text := lit "2026-01-02T09:00:00".
Definition now2 : text := lit "2026-01-03T09:00:00".

End Examples.

(** * The rest of the exam subsystem

    The functions around the parser and the grader: the generators that
    call the parser, the answer key, the endpoints that read and delete
    stored exams, the suggestions of the chat, the choice of the AI
    service and the flashcard parser. *)

From Stdlib Require Import Sorting.Sorted.

(** ** More of Python: slices, joins, sorting *)

Module Builtins.

(** [l[:n]]: the first [n] elements; a negative [n] counts from the end. *)
Definition slice_to {A} (n : Z) (l : list A) : list A :=
  if 0 <=? n then take (Z.to_nat n) l
  else take (length l - Z.to_nat (- n)) l.

(** [sep.join(l)] *)
Fixpoint join (sep : text) (l : list text) : text :=
  match l with
  | [] => []
  | x :: l' =>
      match l' with
      | [] => x
      | _ :: _ => x ++ sep ++ join sep l'
      end
  end.

(** [s.count(c)] for a single character [c] *)
Fixpoint count (c : N) (s : text) : nat :=
  match s with
  | [] => 0%nat
  | x :: s' => if (x =? c)%N then S (count c s') else count c s'
  end.

(** [a < b] of two strings: the order of the code points, a proper prefix
    before the longer string. *)
Fixpoint text_ltb (a b : text) : bool :=
  match a, b with
  | _, [] => false
  | [], _ :: _ => true
  | x :: a', y :: b' => (x <? y)%N || ((x =? y)%N && text_ltb a' b')
  end.

(** [sorted(l, key=key, reverse=True)] for a key that is a string. The
    sort is stable, also in reverse: elements with equal keys stay in the
    order they have in [l]; the result of a stable sort does not depend on
    the algorithm, here an insertion from the right. *)
Fixpoint insert_desc {A} (key : A -> text) (x : A) (l : list A) : list A :=
  match l with
  | [] => [x]
  | y :: l' =>
      if text_ltb (key x) (key y) then y :: insert_desc key x l'
      else x :: y :: l'
  end.

Definition sorted_desc {A} (key : A -> text) (l : list A) : list A :=
  foldr (insert_desc key) [] l.

(** The key of [x] is not below the key of [y]: [x] may stand before [y]
    in a list sorted in reverse. *)
Definition ge_key {A} (key : A -> text) (x y : A) : Prop :=
  text_ltb (key x) (key y) = false.

(** The key of [x] is below the key of [y]. *)
Definition lt_key {A} (key : A -> text) (x y : A) : Prop :=
  text_ltb (key x) (key y) = true.

End Builtins.

(** ** More of binary64: [int(x)] and the quotient of two integers *)

Module Float64Int.

Import Float64.

(** The literal [0.5]. *)
Definition f0_5 : float := S754_finite false 4503599627370496 (-53).

(** [int(x)]: the integer part, towards zero; [None] is the
    [OverflowError] or [ValueError] of an infinity or a NaN. *)
Definition trunc (x : float) : option Z :=
  match x with
  | S754_zero _ => Some 0
  | S754_finite s m e =>
      Some (cond_Zopp s
              (if 0 <=? e then Z.pos m * 2 ^ e else Z.pos m / 2 ^ (- e)))
  | _ => None
  end.

(** The record of a mantissa cut at a unit of weight [W] in the exact
    value [N]: the quotient, and the remainder as the round bit (at least
    half a unit) and the sticky bit (neither nothing nor half a unit). *)
Definition shr_w (N W : Z) (mrs : shr_record) : Prop :=
  0 <= shr_m mrs /\
  exists rem, N = shr_m mrs * W + rem /\ 0 <= rem < W /\
    (shr_r mrs = true <-> W <= 2 * rem) /\
    (shr_s mrs = true <-> rem <> 0 /\ 2 * rem <> W).

End Float64Int.

(** ** Generators and answer key ([exam_generator.py]) *)

Module Generate.

Import ExamGenerator Builtins Float64 Float64Int.

(** [generate_multiple_choice]. [response] is what [ai_service._generate]
    returns for the prompt built from the text and the number of
    questions, [None] when the call raises: the [except] clause returns
    the empty list. *)
Definition generate_multiple_choice (response : option text) (num_questions : Z)
    : list question :=
  match response with
  | Some r => slice_to num_questions (_parse_multiple_choice r)
  | None => []
  end.

Definition generate_true_false (response : option text) (num_questions : Z)
    : list question :=
  match response with
  | Some r => slice_to num_questions (_parse_true_false r)
  | None => []
  end.

Definition generate_short_answer (response : option text) (num_questions : Z)
    : list question :=
  match response with
  | Some r => slice_to num_questions (_parse_short_answer r)
  | None => []
  end.

(** [generate_mixed_exam], with the outcomes of its three calls of the
    service. [None] is the exception of [int] on a product that is not
    finite. *)
Definition generate_mixed_exam (mc_response tf_response sa_response : option text)
    (total_questions : Z) : option (list question) :=
  match trunc (mul (of_int total_questions) f0_5),
        trunc (mul (of_int total_questions) f0_3) with
  | Some mc_count, Some tf_count =>
      let sa_count := total_questions - mc_count - tf_count in
      let mc_questions := generate_multiple_choice mc_response mc_count in
      let tf_questions := generate_true_false tf_response tf_count in
      let sa_questions := generate_short_answer sa_response sa_count in
      Some (mc_questions ++ tf_questions ++ sa_questions)
  | _, _ => None
  end.

(** [q['question']] *)
Definition question_text (q : question) : text :=
  match q with
  | multiple_choice t _ _ _ => t
  | true_false t _ _ => t
  | short_answer t _ _ => t
  end.

(** [q['options'][q['correct_answer']]]; the keys of the options are
    strings of one character. [None] is the [KeyError]. *)
Definition option_of (options : gmap N text) (correct_answer : text) : option text :=
  match correct_answer with
  | [k] => options !! k
  | _ => None
  end.

(** The line of the explanation, when the record has one that is not
    empty. *)
Definition explanation_lines (explanation : text) : list text :=
  if text_eqb explanation [] then []
  else [lit "  Explanation: " ++ explanation].

(** The lines [format_answer_key] appends for the question numbered [i]. *)
Definition answer_key_lines (i : Z) (q : question) : option (list text) :=
  let head :=
    lit "Question " ++ str_int i ++ lit ": " ++ take 50 (question_text q) ++ lit "..." in
  match q with
  | multiple_choice _ options correct_answer explanation =>
      match option_of options correct_answer with
      | Some o =>
          Some ([head; lit "  Answer: " ++ correct_answer ++ lit ") " ++ o]
                ++ explanation_lines explanation ++ [[]])
      | None => None
      end
  | true_false _ correct_answer explanation =>
      Some ([head;
             lit "  Answer: " ++ (if correct_answer then lit "TRUE" else lit "FALSE")]
            ++ explanation_lines explanation ++ [[]])
  | short_answer _ sample_answer key_points =>
      Some [head; lit "  Sample Answer: " ++ sample_answer;
            lit "  Key Points: " ++ key_points; []]
  end.

(** The loop over [enumerate(exam_data['questions'], 1)], from number [i]
    on. *)
Fixpoint answer_key_from (i : Z) (questions : list question) (output : list text)
    : option (list text) :=
  match questions with
  | [] => Some output
  | q :: qs =>
      match answer_key_lines i q with
      | Some ls => answer_key_from (i + 1) qs (output ++ ls)
      | None => None
      end
  end.

(** [format_answer_key]; [exam_data] is given by the values of the two
    keys that are read, ['title'] (a string) and ['questions']. *)
Definition format_answer_key (title : text) (questions : list question) : option text :=
  match answer_key_from 1 questions
          [replicate 70 61%N; lit "ANSWER KEY: " ++ title; replicate 70 61%N; []] with
  | Some output => Some (join [NL] output)
  | None => None
  end.

(** A multiple choice record whose correct answer names one of its
    options. *)
Definition answerable (q : question) : Prop :=
  match q with
  | multiple_choice _ options correct_answer _ =>
      exists k, correct_answer = [k] /\ is_Some (options !! k)
  | _ => True
  end.

(** A multiple choice record whose correct answer is one of the letters A
    to D. *)
Definition correct_in_A_D (q : question) : Prop :=
  match q with
  | multiple_choice _ _ correct_answer _ =>
      exists k, correct_answer = [k] /\ (65 <= k <= 68)%N
  | _ => True
  end.

(** A record one of the three parsers returns for some response. *)
Definition parsed (q : question) : Prop :=
  exists s, q ∈ _parse_multiple_choice s \/ q ∈ _parse_true_false s \/
            q ∈ _parse_short_answer s.

End Generate.

(** ** The other exam endpoints ([main.py]) *)

Module Endpoints.

Import Main Builtins Generate.

(** The exceptions the endpoints tell apart. *)
Inductive exception :=
  | FileNotFoundError
  | HTTPException (status : http_error)
  | OtherException.

(** [load_exam]. The directory [main.py] names [DATA_DIR / "exams"] and
    the one [exam_generator.py] reads and writes are taken to be the same
    directory [files], as they are when [DATA_DIR] is set in the
    environment or the program does not run frozen. *)
Definition load_exam (filename : string) (files : gmap string (gmap string value))
    : exception + gmap string value :=
  match files !! filename with
  | Some exam_data => inr exam_data
  | None => inl FileNotFoundError
  end.

(** [GET /api/exams/{exam_id}] *)
Definition get_exam (exam_id : string) (files : gmap string (gmap string value))
    : http_error + gmap string value :=
  match load_exam (file_name exam_id) files with
  | inr exam_data => inr exam_data
  | inl FileNotFoundError => inl Http404
  | inl _ => inl Http500
  end.

Module AttemptsResponse.
Record t := {
  exam_id : value;
  exam_title : value;
  attempts : list Attempt.t;
  best_score : value;
  attempt_count : Z
}.
End AttemptsResponse.

(** [exam_data.get(key)] *)
Definition get (key : string) (exam_data : gmap string value) : value :=
  default VNone (exam_data !! key).

(** [GET /api/exams/{exam_id}/attempts]. An entry under ['attempts'] that
    is not a list of attempts ends in the [except Exception] clause. *)
Definition get_exam_attempts (exam_id : string)
    (files : gmap string (gmap string value)) : http_error + AttemptsResponse.t :=
  match load_exam (file_name exam_id) files with
  | inr exam_data =>
      match attempts_of exam_data with
      | Some attempts =>
          let attempts_sorted := sorted_desc Attempt.timestamp attempts in
          inr {| AttemptsResponse.exam_id := get "id" exam_data;
                 AttemptsResponse.exam_title := get "title" exam_data;
                 AttemptsResponse.attempts := attempts_sorted;
                 AttemptsResponse.best_score := get "best_score" exam_data;
                 AttemptsResponse.attempt_count := Z.of_nat (length attempts) |}
      | None => inl Http500
      end
  | inl FileNotFoundError => inl Http404
  | inl _ => inl Http500
  end.

(** The body of the [try] of [delete_exam]: the exception for a file that
    does not exist is raised inside it. *)
Definition delete_exam_try (exam_id : string)
    (files : gmap string (gmap string value))
    : exception + gmap string (gmap string value) :=
  let exam_id := file_name exam_id in
  match files !! exam_id with
  | None => inl (HTTPException Http404)
  | Some _ => inr (delete exam_id files)
  end.

(** [DELETE /api/exams/{exam_id}]: [except FileNotFoundError] answers 404,
    [except Exception], which an [HTTPException] reaches too, answers 500. *)
Definition delete_exam (exam_id : string) (files : gmap string (gmap string value))
    : http_error + gmap string (gmap string value) :=
  match delete_exam_try exam_id files with
  | inr files' => inr files'
  | inl FileNotFoundError => inl Http404
  | inl (HTTPException _) => inl Http500
  | inl OtherException => inl Http500
  end.

(** One entry of [exam_request.question_types]. *)
Module ExamQuestionType.
Record t := {
  type : text;
  count : Z
}.
End ExamQuestionType.

(** The loop of [generate_exam_endpoint] over the question types.
    [responses k] is the outcome of the call number [k] of the AI service
    and [calls] the number of calls made so far. [questions] is the local
    variable of this name, which only the three known types assign: [None]
    for the result is the [UnboundLocalError] of the [print] that reads it
    before that. *)
Fixpoint questions_by_type (responses : nat -> option text) (calls : nat)
    (question_types : list ExamQuestionType.t)
    (all_questions : list question) (questions : option (list question))
    : option (list question) :=
  match question_types with
  | [] => Some all_questions
  | qt :: rest =>
      if 0 <? ExamQuestionType.count qt then
        if text_eqb (ExamQuestionType.type qt) (lit "multiple_choice") then
          let qs := generate_multiple_choice (responses calls) (ExamQuestionType.count qt) in
          questions_by_type responses (S calls) rest (all_questions ++ qs) (Some qs)
        else if text_eqb (ExamQuestionType.type qt) (lit "true_false") then
          let qs := generate_true_false (responses calls) (ExamQuestionType.count qt) in
          questions_by_type responses (S calls) rest (all_questions ++ qs) (Some qs)
        else if text_eqb (ExamQuestionType.type qt) (lit "short_answer") then
          let qs := generate_short_answer (responses calls) (ExamQuestionType.count qt) in
          questions_by_type responses (S calls) rest (all_questions ++ qs) (Some qs)
        else
          match questions with
          | Some _ => questions_by_type responses calls rest all_questions questions
          | None => None
          end
      else questions_by_type responses calls rest all_questions questions
  end.

(** The questions of a new exam, as [generate_exam_endpoint] gets them
    from the request once the text of the documents is there: by type, or
    mixed when no type is given; an exception, or no question at all,
    answers 500. *)
Definition exam_questions (responses : nat -> option text)
    (question_types : option (list ExamQuestionType.t)) (question_count : option Z)
    : http_error + list question :=
  let all_questions :=
    match question_types with
    | Some (qt :: rest) => questions_by_type responses 0 (qt :: rest) [] None
    | _ =>
        match question_count with
        | Some n => generate_mixed_exam (responses 0%nat) (responses 1%nat)
                                        (responses 2%nat) n
        | None => None
        end
    end in
  match all_questions with
  | Some (q :: qs) => inr (q :: qs)
  | _ => inl Http500
  end.

(** The entries of a request that name a known type and ask for at least
    one question. *)
Definition known_type (qt : ExamQuestionType.t) : bool :=
  text_eqb (ExamQuestionType.type qt) (lit "multiple_choice") ||
  text_eqb (ExamQuestionType.type qt) (lit "true_false") ||
  text_eqb (ExamQuestionType.type qt) (lit "short_answer").

(** The number of questions a list of types asks for. *)
Fixpoint requested (question_types : list ExamQuestionType.t) : Z :=
  match question_types with
  | [] => 0
  | qt :: rest =>
      (if (0 <? ExamQuestionType.count qt) && known_type qt
       then ExamQuestionType.count qt else 0) + requested rest
  end.

(** [generate_follow_up_suggestions]; the context is the optional object
    of the request. *)
Definition generate_follow_up_suggestions (user_message ai_response : text)
    (context : option (gmap string value)) : list text :=
  let s1 :=
    match context with
    | Some c =>
        if bool_decide (is_Some (c !! "document_id"%string)) then
          [lit "Summarize this document"; lit "Quiz me on this topic";
           lit "What are the key points?"]
        else []
    | None => []
    end in
  let s2 :=
    if contains (lower user_message) (lit "what") then
      s1 ++ [lit "Can you explain that in simpler terms?";
             lit "Show me related flashcards"]
    else s1 in
  let s3 :=
    if contains (lower user_message) (lit "how") then
      s2 ++ [lit "Can you give me an example?";
             lit "Create a practice question about this"]
    else s2 in
  match s3 with
  | [] => [lit "Quiz me on this topic"; lit "What should I study next?";
           lit "Create a study plan"]
  | _ => s3
  end.

(** The suggestions of a chat response: [suggestions[:3]] in
    [chat_with_ai]. *)
Definition chat_suggestions (user_message ai_response : text)
    (context : option (gmap string value)) : list text :=
  slice_to 3 (generate_follow_up_suggestions user_message ai_response context).

End Endpoints.

(** ** The AI service and the flashcards ([ai_service.py]) *)

Module AiService.

Import ExamGenerator Builtins.

Inductive service :=
  | OllamaService
  | OpenAIService (api_key : text) (model : option text).

(** What the selection of a service finds around it: whether Ollama
    answers on its port, and whether the client of OpenAI can be
    created. *)
Record env := {
  ollama_available : bool;
  openai_client : bool
}.

(** [OpenAIService(api_key, model)]; [None] is an exception. *)
Definition new_OpenAIService (E : env) (api_key : text) (model : option text)
    : option service :=
  if text_eqb api_key [] || text_eqb api_key (lit "placeholder") then None
  else if openai_client E then Some (OpenAIService api_key model)
  else None.

(** [get_ai_service_for_request]; [None] is an exception. *)
Definition get_ai_service_for_request (E : env) (ai_model : text)
    (openai_model : option text) (api_key : text) : option service :=
  let ai_model_lower :=
    if text_eqb ai_model [] then lit "openai" else strip (lower ai_model) in
  if text_eqb ai_model_lower (lit "llama") || text_eqb ai_model_lower (lit "ollama")
  then
    if ollama_available E then Some OllamaService else None
  else
    if text_eqb api_key [] || (length api_key <? 20)%nat then None
    else if negb (startswith api_key (lit "sk-") || startswith api_key (lit "sk-proj-"))
    then None
    else new_OpenAIService E api_key openai_model.

(** [x or default] of an optional string. *)
Definition or_else (x : option text) (d : text) : text :=
  match x with
  | Some (c :: s) => c :: s
  | _ => d
  end.

(** [get_ai_service_from_header] of [main.py]: the three headers, each
    present or not; any exception falls back to Ollama. *)
Definition get_ai_service_from_header (E : env)
    (x_ai_model x_openai_model x_openai_api_key : option text) : service :=
  let model_preference := lower (or_else x_ai_model (lit "openai")) in
  let openai_model := x_openai_model in
  let openai_api_key := or_else x_openai_api_key [] in
  match get_ai_service_for_request E model_preference openai_model openai_api_key with
  | Some s => s
  | None => OllamaService
  end.

Module Flashcard.
Record t := {
  question : text;
  answer : text;
  difficulty : option text
}.
End Flashcard.

(** [re.match(r'\s*A:\s*', s)]: the number of characters the marker takes
    at the head of [s]. *)
Definition marker_len_A (s : text) : option nat :=
  let s1 := lstrip s in
  if startswith s1 (lit "A:") then
    Some (length s - length (lstrip (drop 2 s1)))%nat
  else None.

(** [re.split(r'\n\s*A:\s*', s, maxsplit=1)] when the pattern occurs: what
    is before and what is after its leftmost match; [None] when it does
    not occur and the split has one part. [cur] is the part being read,
    reversed. *)
Fixpoint split_A (s : text) (cur : text) : option (text * text) :=
  match s with
  | [] => None
  | c :: s' =>
      if (c =? NL)%N then
        match marker_len_A s' with
        | Some n => Some (rev cur, drop n s')
        | None => split_A s' (c :: cur)
        end
      else split_A s' (c :: cur)
  end.

(** The body of the loop of [_parse_flashcards] for one section. *)
Definition flashcard_section (section : text) : option Flashcard.t :=
  match split_A section [] with
  | Some (p0, p1) =>
      let question := strip p0 in
      let answer := strip (hd [] (re_split_Q p1)) in
      if negb (text_eqb question []) && negb (text_eqb answer []) then
        Some {| Flashcard.question := question;
                Flashcard.answer := answer;
                Flashcard.difficulty := None |}
      else None
  | None => None
  end.

Definition _parse_flashcards (s : text) : list Flashcard.t :=
  omap flashcard_section (sections s).

(** [card['difficulty'] = difficulty] *)
Definition set_difficulty (difficulty : text) (card : Flashcard.t) : Flashcard.t :=
  {| Flashcard.question := Flashcard.question card;
     Flashcard.answer := Flashcard.answer card;
     Flashcard.difficulty := Some difficulty |}.

(** One turn of the loop of [generate_flashcards] over the difficulties:
    the cards it adds. [response] is the outcome of the call of the
    service, [None] when it raises. *)
Definition difficulty_cards (difficulty : text) (response : option text)
    (cards_per_difficulty : Z) : list Flashcard.t :=
  match response with
  | Some r =>
      slice_to cards_per_difficulty
        (map (set_difficulty difficulty) (_parse_flashcards r))
  | None => []
  end.

(** [generate_flashcards], with the outcomes of its three calls of the
    service, in the order of the difficulties. *)
Definition generate_flashcards (easy medium hard : option text)
    (cards_per_difficulty : Z) : list Flashcard.t :=
  difficulty_cards (lit "easy") easy cards_per_difficulty ++
  difficulty_cards (lit "medium") medium cards_per_difficulty ++
  difficulty_cards (lit "hard") hard cards_per_difficulty.

End AiService.

(** ** More data for the examples *)

Module Examples2.

Import Main Examples.

(** Two attempts against [exam9], in the order they were made. *)
Definition attempts2 : list Attempt.t :=
  [ {| Attempt.timestamp := now1; Attempt.score := 7; Attempt.total := 9;
       Attempt.percentage := 78 |};
    {| Attempt.timestamp := now2; Attempt.score := 4; Attempt.total := 9;
       Attempt.percentage := 44 |} ].

(** [exam9] after these two attempts. *)
Definition exam9_taken : gmap string value :=
  <["last_attempt" := VStr now2]>
    (<["attempt_count" := VInt 2]>
       (<["best_score" := VInt 78]>
          (<["attempts" := VAttempts attempts2]> exam9))).

Definition files9_taken : gmap string (gmap string value) :=
  {[ "CS101_exam_20260101_120000_ab12cd34.json"%string := exam9_taken ]}.

End Examples2.

(** * Properties *)

(** ** Binary64: the operations of the grader stay finite *)

Section Float64Facts.
Import Float64.

Lemma digits2_pos_size p : digits2_pos p = Pos.size p.
Proof. induction p; simpl; congruence. Qed.

Lemma Zdigits2_log2 m : 0 < m -> Zdigits2 m = Z.log2 m + 1.
Proof.
  destruct m as [|p|p]; try lia. intros _.
  destruct p; simpl; rewrite ?digits2_pos_size; lia.
Qed.

Lemma Zdigits2_nonneg m : 0 <= Zdigits2 m.
Proof. destruct m; simpl; lia. Qed.

Lemma Zdigits2_mono a b : 0 <= a <= b -> Zdigits2 a <= Zdigits2 b.
Proof.
  intros [Ha Hab]. destruct (Z.eq_dec a 0) as [->|Hn].
  - apply Zdigits2_nonneg.
  - rewrite !Zdigits2_log2 by lia. pose proof (Z.log2_le_mono a b Hab). lia.
Qed.

Lemma Zdigits2_succ a : 0 <= a -> Zdigits2 (a + 1) <= Zdigits2 a + 1.
Proof.
  intros Ha. destruct (Z.eq_dec a 0) as [->|Hn]; [simpl; lia|].
  rewrite !Zdigits2_log2 by lia.
  pose proof (Z.log2_succ_le a). unfold Z.succ in *. lia.
Qed.

Lemma Zdigits2_mul a b : 0 < a -> 0 < b -> Zdigits2 (a * b) <= Zdigits2 a + Zdigits2 b.
Proof.
  intros Ha Hb. rewrite !Zdigits2_log2 by lia.
  pose proof (Z.log2_mul_above a b ltac:(lia) ltac:(lia)). lia.
Qed.

Lemma Zdigits2_shiftl a s : 0 < a -> 0 <= s -> Zdigits2 (Z.shiftl a s) = Zdigits2 a + s.
Proof.
  intros Ha Hs.
  assert (0 < Z.shiftl a s).
  { rewrite Z.shiftl_mul_pow2 by lia. pose proof (Z.pow_pos_nonneg 2 s). lia. }
  rewrite !Zdigits2_log2 by lia. rewrite Z.log2_shiftl by lia. lia.
Qed.

Lemma Zdigits2_div_pow2 m n :
  0 <= m -> 0 <= n -> Zdigits2 (m / 2 ^ n) <= Z.max 0 (Zdigits2 m - n).
Proof.
  intros Hm Hn. rewrite <- Z.shiftr_div_pow2 by lia.
  destruct (Z.eq_dec m 0) as [->|Hm0].
  { rewrite Z.shiftr_0_l. simpl. lia. }
  destruct (Z.eq_dec (Z.shiftr m n) 0) as [->|Hq]; [simpl; lia|].
  assert (0 <= Z.shiftr m n) by (apply Z.shiftr_nonneg; lia).
  assert (n <= Z.log2 m).
  { destruct (Z_lt_le_dec (Z.log2 m) n) as [Hlt|]; [|lia].
    exfalso. apply Hq. apply Z.shiftr_eq_0; lia. }
  rewrite !Zdigits2_log2 by lia. rewrite Z.log2_shiftr by lia. lia.
Qed.

Lemma shr_1_m mrs : 0 <= shr_m mrs -> shr_m (shr_1 mrs) = shr_m mrs / 2.
Proof.
  destruct mrs as [m r s]; simpl. intros Hm.
  destruct m as [|p|p]; try lia; [reflexivity|].
  destruct p; simpl.
  - rewrite Pos2Z.inj_xI. apply Z.div_unique with 1; lia.
  - rewrite Pos2Z.inj_xO. apply Z.div_unique with 0; lia.
  - reflexivity.
Qed.

Lemma shr_1_nonneg mrs : 0 <= shr_m mrs -> 0 <= shr_m (shr_1 mrs).
Proof. intros H. rewrite shr_1_m by assumption. apply Z.div_pos; lia. Qed.

Lemma iter_shr_1_m p : forall mrs,
  0 <= shr_m mrs ->
  0 <= shr_m (SpecFloat.iter_pos shr_1 p mrs) /\
  shr_m (SpecFloat.iter_pos shr_1 p mrs) = shr_m mrs / 2 ^ Z.pos p.
Proof.
  induction p as [p IH|p IH|]; intros mrs Hm; simpl SpecFloat.iter_pos.
  - destruct (IH (shr_1 mrs) (shr_1_nonneg _ Hm)) as [H1 E1].
    destruct (IH _ H1) as [H2 E2]. split; [exact H2|].
    rewrite E2, E1, shr_1_m by assumption.
    rewrite !Z.div_div by (try apply Z.pow_pos_nonneg; lia).
    f_equal. replace (Z.pos p~1) with (1 + Z.pos p + Z.pos p)%Z by lia.
    rewrite !Z.pow_add_r by lia. lia.
  - destruct (IH mrs Hm) as [H1 E1].
    destruct (IH _ H1) as [H2 E2]. split; [exact H2|].
    rewrite E2, E1.
    rewrite !Z.div_div by (try apply Z.pow_pos_nonneg; lia).
    f_equal. replace (Z.pos p~0) with (Z.pos p + Z.pos p)%Z by lia.
    rewrite !Z.pow_add_r by lia. lia.
  - split; [apply shr_1_nonneg; assumption|]. rewrite shr_1_m by lia. reflexivity.
Qed.

(** After the shift to the format, a mantissa has at most [prec] digits. *)
Lemma shr_fexp_bound m e l :
  0 <= m ->
  0 <= shr_m (fst (shr_fexp prec emax m e l)) /\
  Zdigits2 (shr_m (fst (shr_fexp prec emax m e l))) <= 53 /\
  snd (shr_fexp prec emax m e l) = Z.max e (fexp prec emax (Zdigits2 m + e)).
Proof.
  intros Hm. unfold shr_fexp, shr.
  assert (Hrec : shr_m (shr_record_of_loc m l) = m) by (destruct l as [|[]]; reflexivity).
  pose proof (Zdigits2_nonneg m) as Hd.
  unfold fexp, SpecFloat.emin, prec, emax in *.
  destruct (Z.max (Zdigits2 m + e - 53) (3 - 1024 - 53) - e) as [|p|p] eqn:En; simpl fst; simpl snd.
  - rewrite Hrec. repeat split; lia.
  - destruct (iter_shr_1_m p (shr_record_of_loc m l)) as [H1 E1]; [rewrite Hrec; lia|].
    rewrite E1, Hrec. split; [rewrite <- Hrec, <- E1; exact H1|]. split; [|lia].
    pose proof (Zdigits2_div_pow2 m (Z.pos p) Hm ltac:(lia)). lia.
  - rewrite Hrec. repeat split; lia.
Qed.

Lemma round_nearest_even_bound m l :
  0 <= m -> m <= round_nearest_even m l <= m + 1.
Proof.
  intros Hm. destruct l as [|[]]; simpl; try lia. destruct (Z.even m); lia.
Qed.

Lemma binary_round_aux_bound s mx ex lx lo hi :
  0 <= mx -> lo <= ex <= hi -> Zdigits2 mx + ex - 53 <= hi -> -1074 <= hi <= 970 ->
  fin_bound lo (hi + 1) (binary_round_aux prec emax s mx ex lx).
Proof.
  intros Hm He Hd Hhi. unfold binary_round_aux.
  destruct (shr_fexp_bound mx ex lx Hm) as (H1 & D1 & E1).
  destruct (shr_fexp prec emax mx ex lx) as [mrs1 e1]. simpl in H1, D1, E1.
  pose proof (round_nearest_even_bound (shr_m mrs1) (loc_of_shr_record mrs1) H1) as Hr.
  set (mr := round_nearest_even (shr_m mrs1) (loc_of_shr_record mrs1)) in *.
  assert (Hmr : 0 <= mr) by lia.
  assert (Dr : Zdigits2 mr <= 54).
  { pose proof (Zdigits2_mono mr (shr_m mrs1 + 1) ltac:(lia)).
    pose proof (Zdigits2_succ (shr_m mrs1) H1). lia. }
  destruct (shr_fexp_bound mr e1 loc_Exact Hmr) as (H2 & D2 & E2).
  destruct (shr_fexp prec emax mr e1 loc_Exact) as [mrs2 e2]. simpl in H2, D2, E2.
  unfold fexp, SpecFloat.emin, prec, emax in *.
  destruct (shr_m mrs2) as [|m|m]; simpl; [exact I| |lia].
  assert (e2 <= hi + 1) by lia.
  replace (e2 <=? 1024 - 53) with true by (symmetry; apply Z.leb_le; lia).
  simpl in D2 |- *. split; [lia|lia].
Qed.


Lemma digits2_pos_iter_xO m d :
  Z.pos (digits2_pos (Pos.iter xO m d)) = Z.pos (digits2_pos m) + Z.pos d.
Proof.
  induction d using Pos.peano_ind.
  - simpl. lia.
  - rewrite Pos.iter_succ. simpl. lia.
Qed.

Lemma Zdigits2_bounds m d :
  0 < m -> Zdigits2 m = d -> 2 ^ (d - 1) <= m < 2 ^ d.
Proof.
  intros Hm Hd. rewrite Zdigits2_log2 in Hd by exact Hm.
  pose proof (Z.log2_spec m Hm) as H. unfold Z.succ in H.
  replace (d - 1) with (Z.log2 m) by lia. replace d with (Z.log2 m + 1) by lia.
  exact H.
Qed.

Lemma Zdigits2_unique m d :
  0 < d -> 2 ^ (d - 1) <= m < 2 ^ d -> Zdigits2 m = d.
Proof.
  intros Hd Hm.
  assert (0 < m).
  { pose proof (Z.pow_pos_nonneg 2 (d - 1) ltac:(lia) ltac:(lia)). lia. }
  rewrite Zdigits2_log2 by assumption.
  rewrite (Z.log2_unique m (d - 1)); [lia|lia|].
  unfold Z.succ. replace (d - 1 + 1) with d by lia. exact Hm.
Qed.

Lemma pos_iter_xO m d : Z.pos (Pos.iter xO m d) = Z.pos m * 2 ^ Z.pos d.
Proof.
  induction d using Pos.peano_ind.
  - simpl. lia.
  - rewrite Pos.iter_succ, Pos2Z.inj_xO, IHd, Pos2Z.inj_succ, Z.pow_succ_r by lia. lia.
Qed.

(** [float(n)] of a positive integer below [2^53], with its value. *)
Lemma of_int_value p :
  Z.pos p < 2 ^ 53 ->
  exists m s, of_int (Z.pos p) = S754_finite false m (- s) /\
              0 <= s <= 52 /\ Z.pos m = Z.pos p * 2 ^ s /\
              2 ^ 52 <= Z.pos m < 2 ^ 53.
Proof.
  intros Hp. unfold of_int, binary_normalize, binary_round.
  assert (Hd : 1 <= Z.pos (digits2_pos p) <= 53).
  { split; [lia|]. change (Z.pos (digits2_pos p)) with (Zdigits2 (Z.pos p)).
    rewrite Zdigits2_log2 by lia.
    pose proof (Z.log2_lt_pow2 (Z.pos p) 53 ltac:(lia)). lia. }
  assert (Hfin : forall m e, Zdigits2 (Z.pos m) = 53 -> -52 <= e <= 0 ->
            binary_round_aux prec emax false (Z.pos m) e loc_Exact = S754_finite false m e).
  { intros m e Hm He.
    assert (Hs : shr_fexp prec emax (Z.pos m) e loc_Exact =
                 (Build_shr_record (Z.pos m) false false, e)).
    { unfold shr_fexp. rewrite Hm. unfold fexp, SpecFloat.emin, prec, emax.
      replace (Z.max (53 + e - 53) (3 - 1024 - 53) - e) with 0 by lia.
      reflexivity. }
    unfold binary_round_aux. rewrite Hs. cbn [shr_m loc_of_shr_record round_nearest_even].
    rewrite Hs. cbn [shr_m]. unfold prec, emax.
    replace (e <=? 1024 - 53) with true by (symmetry; apply Z.leb_le; lia). reflexivity. }
  unfold shl_align, fexp, SpecFloat.emin, prec, emax.
  destruct (Z.max (Z.pos (digits2_pos p) + 0 - 53) (3 - 1024 - 53) - 0) as [|d|d] eqn:Ed.
  - exists p, 0. assert (Hm : Zdigits2 (Z.pos p) = 53) by (simpl; lia).
    split; [apply Hfin; [exact Hm|lia]|]. split; [lia|]. split; [simpl; lia|].
    apply (Zdigits2_bounds (Z.pos p) 53 ltac:(lia) Hm).
  - lia.
  - assert (Hm : Zdigits2 (Z.pos (Pos.iter xO p d)) = 53).
    { simpl. rewrite digits2_pos_iter_xO. lia. }
    exists (Pos.iter xO p d), (Z.pos d).
    replace (Z.max (Z.pos (digits2_pos p) + 0 - 53) (3 - 1024 - 53)) with (- Z.pos d) by lia.
    split; [apply Hfin; [exact Hm|lia]|]. split; [lia|]. split; [apply pos_iter_xO|].
    apply (Zdigits2_bounds (Z.pos (Pos.iter xO p d)) 53 ltac:(lia) Hm).
Qed.

Lemma of_int_pos p :
  Z.pos p < 2 ^ 53 ->
  exists m e, of_int (Z.pos p) = S754_finite false m e /\
              Zdigits2 (Z.pos m) = 53 /\ -52 <= e <= 0.
Proof.
  intros Hp. destruct (of_int_value p Hp) as (m & s & H & Hs & _ & Hm).
  exists m, (- s). split; [exact H|]. split; [|lia].
  apply Zdigits2_unique; [lia|exact Hm].
Qed.

Lemma div_bound m1 e1 m2 e2 :
  Zdigits2 (Z.pos m1) = 53 -> -52 <= e1 <= 0 ->
  Zdigits2 (Z.pos m2) = 53 -> -52 <= e2 <= 0 ->
  fin_bound (-105) 53 (div (S754_finite false m1 e1) (S754_finite false m2 e2)).
Proof.
  intros D1 E1 D2 E2. unfold div, SFdiv, SFdiv_core_binary.
  rewrite D1, D2. unfold fexp, SpecFloat.emin, prec, emax.
  replace (Z.min (Z.max (53 + e1 - (53 + e2) - 53) (3 - 1024 - 53)) (e1 - e2))
    with (e1 - e2 - 53) by lia.
  replace (e1 - e2 - (e1 - e2 - 53)) with 53 by lia.
  cbv beta iota.
  pose proof (Z_div_mod (Z.shiftl (Z.pos m1) 53) (Z.pos m2) ltac:(lia)) as Hdm.
  destruct (Z.div_eucl (Z.shiftl (Z.pos m1) 53) (Z.pos m2)) as [q r].
  destruct Hdm as [Hq Hr].
  assert (Hs : 0 < Z.shiftl (Z.pos m1) 53).
  { rewrite Z.shiftl_mul_pow2 by lia. lia. }
  assert (Hq0 : 0 <= q) by nia.
  assert (Hqm : q <= Z.shiftl (Z.pos m1) 53) by nia.
  pose proof (Zdigits2_mono q _ (conj Hq0 Hqm)) as Hdq.
  rewrite Zdigits2_shiftl in Hdq by lia.
  change (fin_bound (-105) (52 + 1)
            (binary_round_aux Float64.prec Float64.emax (xorb false false) q
               (e1 - e2 - 53) (new_location (Z.pos m2) r))).
  apply binary_round_aux_bound; lia.
Qed.

Lemma mul_100_bound x :
  fin_bound (-105) 53 x -> fin_bound (-151) 62 (mul x (of_int 100)).
Proof.
  destruct x as [s|s| |s m e]; simpl; try tauto.
  intros [Dm He]. unfold mul, SFmul.
  change (of_int 100) with (S754_finite false 7036874417766400 (-46)).
  cbv beta iota.
  change (fin_bound (-151) (61 + 1)
            (binary_round_aux Float64.prec Float64.emax (xorb s false)
               (Z.pos (m * 7036874417766400)) (e + -46) loc_Exact)).
  pose proof (Zdigits2_mul (Z.pos m) (Z.pos 7036874417766400) ltac:(lia) ltac:(lia)) as Hd.
  change (Zdigits2 (Z.pos 7036874417766400)) with 53 in Hd.
  rewrite <- Pos2Z.inj_mul in Hd.
  apply binary_round_aux_bound; simpl in *; lia.
Qed.

Lemma round_fin_bound lo hi x : fin_bound lo hi x -> is_Some (round x).
Proof. destruct x; simpl; intros H; try tauto; eexists; reflexivity. Qed.

End Float64Facts.


(** [percentage] is computed without an exception for counts below [2^53]. *)
Lemma percentage_of_total c t :
  0 <= c < 2 ^ 53 -> 0 <= t < 2 ^ 53 -> is_Some (Main.percentage_of c t).
Proof.
  intros Hc Ht. unfold Main.percentage_of.
  destruct (0 <? t) eqn:Hpos; [|eexists; reflexivity].
  apply Z.ltb_lt in Hpos.
  destruct t as [|pt|pt]; try lia.
  destruct (of_int_pos pt ltac:(lia)) as (m2 & e2 & -> & D2 & E2).
  apply (round_fin_bound (-151) 62), mul_100_bound.
  destruct c as [|pc|pc]; try lia.
  - exact I.
  - destruct (of_int_pos pc ltac:(lia)) as (m1 & e1 & -> & D1 & E1).
    apply div_bound; assumption.
Qed.


(** ** Binary64: rounding to nearest, and the thresholds of the grader *)

Section Rounding.
Import Float64.

Lemma shr_inv_init P : 0 <= P -> shr_inv P 0 (Build_shr_record P false false).
Proof.
  intros HP. split; [exact HP|]. exists 0. simpl.
  repeat split; try lia; try discriminate; intros; lia.
Qed.

Lemma shr_1_inv P j mrs : 0 <= j -> shr_inv P j mrs -> shr_inv P (j + 1) (shr_1 mrs).
Proof.
  intros Hj [Hm (rem & HP & Hrem & Hr & Hs)].
  assert (H2 : 0 < 2 ^ j) by (apply Z.pow_pos_nonneg; lia).
  assert (Hp : 2 ^ (j + 1) = 2 * 2 ^ j) by (rewrite Z.pow_add_r by lia; lia).
  destruct mrs as [m r s]. simpl in *.
  assert (Hrs : orb r s = true <-> rem <> 0).
  { rewrite orb_true_iff, Hr, Hs. split.
    - intros [H|[H _]]; lia.
    - intros H. destruct (Z_le_gt_dec (2 ^ j) (2 * rem)); [left; assumption|right; split; [assumption|]]. clear - g. lia. }
  clear Hr Hs. unfold shr_inv.
  destruct m as [|[q|q|]|q]; try lia; simpl; (split; [lia|]).
  - exists rem. rewrite Hp.
    split; [lia|]. split; [lia|]. split; [split; [discriminate|lia]|].
    rewrite Hrs. lia.
  - exists (2 ^ j + rem). rewrite Hp. rewrite Pos2Z.inj_xI in HP.
    split; [lia|]. split; [lia|]. split; [split; [lia|reflexivity]|].
    rewrite Hrs. lia.
  - exists rem. rewrite Hp. rewrite Pos2Z.inj_xO in HP.
    split; [lia|]. split; [lia|]. split; [split; [discriminate|lia]|].
    rewrite Hrs. lia.
  - exists (2 ^ j + rem). rewrite Hp.
    split; [lia|]. split; [lia|]. split; [split; [lia|reflexivity]|].
    rewrite Hrs. lia.
Qed.

Lemma iter_shr_inv P p : forall mrs j,
  0 <= j -> shr_inv P j mrs -> shr_inv P (j + Z.pos p) (SpecFloat.iter_pos shr_1 p mrs).
Proof.
  induction p as [p IH|p IH|]; intros mrs j Hj H; simpl SpecFloat.iter_pos.
  - replace (j + Z.pos p~1) with (j + 1 + Z.pos p + Z.pos p) by lia.
    apply IH; [lia|]. apply IH; [lia|]. apply shr_1_inv; assumption.
  - replace (j + Z.pos p~0) with (j + Z.pos p + Z.pos p) by lia.
    apply IH; [lia|]. apply IH; assumption.
  - apply shr_1_inv; assumption.
Qed.

(** Rounding to nearest after a shift is within half a unit of the last
    place kept. *)
Lemma round_nearest_even_near P j mrs :
  0 <= j -> shr_inv P j mrs ->
  let mr := round_nearest_even (shr_m mrs) (loc_of_shr_record mrs) in
  shr_m mrs <= mr <= shr_m mrs + 1 /\
  2 * (mr * 2 ^ j) <= 2 * P + 2 ^ j /\ 2 * P <= 2 * (mr * 2 ^ j) + 2 ^ j.
Proof.
  intros Hj [Hm (rem & HP & Hrem & Hr & Hs)].
  assert (H2 : 0 < 2 ^ j) by (apply Z.pow_pos_nonneg; lia).
  destruct mrs as [m [] []]; simpl in *.
  - assert (2 ^ j <= 2 * rem) by (apply Hr; reflexivity).
    assert (2 * rem <> 2 ^ j) by (apply Hs; reflexivity). nia.
  - assert (2 ^ j <= 2 * rem) by (apply Hr; reflexivity).
    assert (2 * rem = 2 ^ j).
    { destruct (Z.eq_dec (2 * rem) (2 ^ j)) as [E|E]; [exact E|].
      assert (false = true) by (apply Hs; lia). discriminate. }
    destruct (Z.even m); nia.
  - assert (~ 2 ^ j <= 2 * rem) by (intros X; apply Hr in X; discriminate). nia.
  - assert (~ 2 ^ j <= 2 * rem) by (intros X; apply Hr in X; discriminate).
    assert (rem = 0).
    { destruct (Z.eq_dec rem 0) as [E|E]; [exact E|].
      assert (false = true) by (apply Hs; lia). discriminate. }
    nia.
Qed.

(** Rounding a mantissa of [53 + j] digits: the result is the nearest
    mantissa [mr] at [j] bits less, renormalized by [n2] bits when it
    reaches [2^53]. *)
Lemma binary_round_aux_nearest P e j :
  0 < P -> 0 < j -> Zdigits2 P = 53 + j -> -1074 <= e + j <= 970 ->
  exists mr n2 m2,
    binary_round_aux prec emax false P e loc_Exact =
      S754_finite false m2 (e + j + n2) /\
    (n2 = 0 \/ n2 = 1) /\ Z.pos m2 = mr / 2 ^ n2 /\
    2 * (mr * 2 ^ j) <= 2 * P + 2 ^ j /\ 2 * P <= 2 * (mr * 2 ^ j) + 2 ^ j.
Proof.
  intros HP Hj Hd He.
  assert (HJ : 0 < 2 ^ j) by (apply Z.pow_pos_nonneg; lia).
  destruct (Zdigits2_bounds P _ HP Hd) as [Hlo Hhi].
  replace (53 + j - 1) with (52 + j) in Hlo by lia.
  rewrite Z.pow_add_r in Hlo, Hhi by lia.
  unfold binary_round_aux.
  (* first shift: by [j] bits *)
  assert (E1 : shr_fexp prec emax P e loc_Exact =
               (SpecFloat.iter_pos shr_1 (Z.to_pos j) (Build_shr_record P false false),
                e + j)).
  { unfold shr_fexp. rewrite Hd. unfold fexp, SpecFloat.emin, prec, emax.
    replace (Z.max (53 + j + e - 53) (3 - 1024 - 53) - e) with j by lia.
    destruct j as [|pj|pj]; try lia. reflexivity. }
  rewrite E1.
  pose proof (iter_shr_inv P (Z.to_pos j) _ 0 ltac:(lia) (shr_inv_init P ltac:(lia))) as Hinv.
  replace (0 + Z.pos (Z.to_pos j)) with j in Hinv by (rewrite Z2Pos.id; lia).
  set (mrs1 := SpecFloat.iter_pos shr_1 (Z.to_pos j) (Build_shr_record P false false)) in *.
  destruct (round_nearest_even_near P j mrs1 ltac:(lia) Hinv) as (Hmr & Hn1 & Hn2).
  set (mr := round_nearest_even (shr_m mrs1) (loc_of_shr_record mrs1)) in *.
  destruct Hinv as [Hm1 (rem & HPeq & Hrem & _ & _)].
  assert (Hm1b : 2 ^ 52 <= shr_m mrs1 < 2 ^ 53) by (split; nia).
  (* second shift: by one bit when the mantissa has reached 2^53 *)
  destruct (Z.eq_dec mr (2 ^ 53)) as [Emr|Nmr].
  - assert (E2 : shr_fexp prec emax mr (e + j) loc_Exact =
                 (Build_shr_record (2 ^ 52) false false, e + j + 1)).
    { rewrite Emr. unfold shr_fexp, fexp, SpecFloat.emin, prec, emax.
      change (Zdigits2 (2 ^ 53)) with 54.
      replace (Z.max (54 + (e + j) - 53) (3 - 1024 - 53) - (e + j)) with 1 by lia.
      reflexivity. }
    rewrite E2. cbn [shr_m]. change (2 ^ 52) with (Z.pos 4503599627370496).
    cbv beta iota. unfold prec, emax.
    replace (e + j + 1 <=? 1024 - 53) with true by (symmetry; apply Z.leb_le; lia).
    exists mr, 1, 4503599627370496%positive.
    split; [reflexivity|]. split; [right; reflexivity|].
    split; [rewrite Emr; reflexivity|]. split; assumption.
  - assert (Hmrb : 2 ^ 52 <= mr < 2 ^ 53) by lia.
    assert (Dmr : Zdigits2 mr = 53) by (apply Zdigits2_unique; [lia|exact Hmrb]).
    assert (E2 : shr_fexp prec emax mr (e + j) loc_Exact =
                 (Build_shr_record mr false false, e + j)).
    { unfold shr_fexp. rewrite Dmr. unfold fexp, SpecFloat.emin, prec, emax.
      replace (Z.max (53 + (e + j) - 53) (3 - 1024 - 53) - (e + j)) with 0 by lia.
      reflexivity. }
    rewrite E2. cbn [shr_m]. destruct mr as [|pm|pm] eqn:Epm; try lia.
    unfold prec, emax.
    replace (e + j <=? 1024 - 53) with true by (symmetry; apply Z.leb_le; lia).
    exists (Z.pos pm), 0, pm. rewrite Z.add_0_r.
    split; [reflexivity|]. split; [left; reflexivity|].
    split; [rewrite Z.pow_0_r, Z.div_1_r; reflexivity|]. split; assumption.
Qed.

(** The product of [float(n)] and a normal double, for [0 < n < 2^49]:
    the exact product [P] of the mantissas has [53 + j] digits, [j] being
    52 or 53, and the result is [P] rounded to nearest. *)
Lemma mul_of_int_nearest p mf ef :
  Z.pos p < 2 ^ 49 -> 2 ^ 52 <= Z.pos mf < 2 ^ 53 -> -60 <= ef <= -50 ->
  exists s j mr n2 m2,
    4 <= s <= 52 /\ (j = 52 \/ j = 53) /\
    2 ^ (52 + j) <= Z.pos p * 2 ^ s * Z.pos mf < 2 ^ (53 + j) /\
    mul (of_int (Z.pos p)) (S754_finite false mf ef) =
      S754_finite false m2 (- s + ef + j + n2) /\
    (n2 = 0 \/ n2 = 1) /\ Z.pos m2 = mr / 2 ^ n2 /\
    2 * (mr * 2 ^ j) <= 2 * (Z.pos p * 2 ^ s * Z.pos mf) + 2 ^ j /\
    2 * (Z.pos p * 2 ^ s * Z.pos mf) <= 2 * (mr * 2 ^ j) + 2 ^ j.
Proof.
  intros Hp Hmf Hef.
  destruct (of_int_value p ltac:(lia)) as (mn & s & -> & Hs & Hmn & Hmnb).
  assert (Hs4 : 4 <= s).
  { destruct (Z_lt_le_dec s 4) as [Hlt|]; [|assumption]. exfalso.
    assert (2 ^ s <= 2 ^ 3) by (apply Z.pow_le_mono_r; lia). nia. }
  unfold mul, SFmul. rewrite Pos2Z.inj_mul, Hmn.
  set (P := Z.pos p * 2 ^ s * Z.pos mf) in *.
  assert (HP : 2 ^ 104 <= P < 2 ^ 106).
  { unfold P. rewrite <- Hmn. split; nia. }
  destruct (Z_lt_le_dec P (2 ^ 105)) as [H105|H105].
  - assert (Hd : Zdigits2 P = 53 + 52) by (apply Zdigits2_unique; simpl; lia).
    destruct (binary_round_aux_nearest P (- s + ef) 52 ltac:(lia) ltac:(lia) Hd ltac:(lia))
      as (mr & n2 & m2 & Hr & Hn2 & Hm2 & Hn).
    exists s, 52, mr, n2, m2. split; [lia|]. split; [left; reflexivity|].
    split; [simpl; lia|]. split; [exact Hr|]. split; [exact Hn2|]. split; assumption.
  - assert (Hd : Zdigits2 P = 53 + 53) by (apply Zdigits2_unique; simpl; lia).
    destruct (binary_round_aux_nearest P (- s + ef) 53 ltac:(lia) ltac:(lia) Hd ltac:(lia))
      as (mr & n2 & m2 & Hr & Hn2 & Hm2 & Hn).
    exists s, 53, mr, n2, m2. split; [lia|]. split; [right; reflexivity|].
    split; [simpl; lia|]. split; [exact Hr|]. split; [exact Hn2|]. split; assumption.
Qed.

Ltac eval_pows :=
  repeat match goal with
    | |- context [2 ^ ?e] =>
        let v := eval vm_compute in (2 ^ e) in change (2 ^ e) with v
    | H : context [2 ^ ?e] |- _ =>
        let v := eval vm_compute in (2 ^ e) in change (2 ^ e) with v in H
    end.

Lemma scaled_le p k A c :
  0 < A -> (p <= c * k -> p * A <= c * (k * A)) /\
           (c * k + 1 <= p -> c * (k * A) + A <= p * A).
Proof. intros HA. split; intros H; nia. Qed.

(** [k >= n * 0.2] is [k] being at least 20% of [n]. *)
Lemma ge_0_2 n k :
  0 <= n < 2 ^ 49 -> int_ge k (mul (of_int n) f0_2) = (n <=? 5 * k).
Proof.
  intros Hn. destruct n as [|p|p]; try lia.
  - simpl. apply eq_true_iff_eq. rewrite !Z.leb_le. lia.
  - unfold f0_2.
    destruct (mul_of_int_nearest p 7205759403792794 (-55) ltac:(lia) ltac:(lia) ltac:(lia))
      as (s & j & mr & n2 & m2 & Hs & Hj & HP & -> & Hn2 & Hm2 & Hlo & Hhi).
    assert (HA : 16 <= 2 ^ s).
    { change 16 with (2 ^ 4). apply Z.pow_le_mono_r; lia. }
    destruct (scaled_le (Z.pos p) k (2 ^ s) 5 ltac:(lia)) as [Hle Hgt].
    unfold int_ge. cbn [cond_Zopp].
    replace (0 <=? - s + -55 + j + n2) with false by (symmetry; apply Z.leb_gt; lia).
    apply eq_true_iff_eq. rewrite !Z.leb_le.
    replace (- (- s + -55 + j + n2)) with (s + (55 - j - n2)) by lia.
    rewrite Z.pow_add_r by lia.
    set (A := 2 ^ s) in *. set (pA := Z.pos p * A) in *. rewrite Hm2.
    replace (k * (A * 2 ^ (55 - j - n2))) with (2 ^ (55 - j - n2) * (k * A)) by ring.
    set (kA := k * A) in *.
    clearbody kA pA A.
    destruct Hj as [-> | ->], Hn2 as [-> | ->]; eval_pows; rewrite ?Z.div_1_r;
      try (pose proof (Z.div_mod mr 2 ltac:(lia));
           pose proof (Z.mod_pos_bound mr 2 ltac:(lia));
           generalize dependent (mr / 2); generalize dependent (mr mod 2); intros r q);
      intros; split; intros; lia.
Qed.


End Rounding.

(** ** Python strings *)

Section Strings.

Lemma lower_length s : length (lower s) = length s.
Proof. apply length_map. Qed.



Lemma letter_not_space c : (65 <= c <= 122)%N -> is_space c = false.
Proof.
  intros Hc. unfold is_space.
  replace (c <=? 13)%N with false by (symmetry; apply N.leb_gt; lia).
  replace (c <=? 32)%N with false by (symmetry; apply N.leb_gt; lia).
  replace (c =? 133)%N with false by (symmetry; apply N.eqb_neq; lia).
  replace (c =? 160)%N with false by (symmetry; apply N.eqb_neq; lia).
  replace (c =? 5760)%N with false by (symmetry; apply N.eqb_neq; lia).
  replace (8192 <=? c)%N with false by (symmetry; apply N.leb_gt; lia).
  replace (c =? 8232)%N with false by (symmetry; apply N.eqb_neq; lia).
  replace (c =? 8233)%N with false by (symmetry; apply N.eqb_neq; lia).
  replace (c =? 8239)%N with false by (symmetry; apply N.eqb_neq; lia).
  replace (c =? 8287)%N with false by (symmetry; apply N.eqb_neq; lia).
  replace (c =? 12288)%N with false by (symmetry; apply N.eqb_neq; lia).
  rewrite !andb_false_r. reflexivity.
Qed.

Lemma is_space_lower_char c : is_space (lower_char c) = is_space c.
Proof.
  unfold lower_char. destruct ((65 <=? c)%N && (c <=? 90)%N) eqn:E; [|reflexivity].
  apply andb_prop in E as [H1 H2]. apply N.leb_le in H1, H2.
  rewrite !letter_not_space by lia. reflexivity.
Qed.

Lemma lstrip_lower s : lstrip (lower s) = lower (lstrip s).
Proof.
  induction s as [|c s IH]; [reflexivity|]. simpl.
  rewrite is_space_lower_char. destruct (is_space c); [exact IH|reflexivity].
Qed.

Lemma rev_lower s : rev (lower s) = lower (rev s).
Proof. unfold lower. symmetry. apply map_rev. Qed.

Lemma strip_lower s : strip (lower s) = lower (strip s).
Proof.
  unfold strip, rstrip.
  rewrite lstrip_lower, rev_lower, lstrip_lower, rev_lower. reflexivity.
Qed.






(** *** Substrings *)







(** *** Words *)

Lemma split_ws_aux_space s c : forall cur,
  is_space c = true -> split_ws_aux (s ++ [c]) cur = split_ws_aux s cur.
Proof.
  induction s as [|a s IH]; intros cur Hc; simpl.
  - rewrite Hc. destruct cur; reflexivity.
  - destruct (is_space a); [destruct cur|]; rewrite ?IH by exact Hc; reflexivity.
Qed.

Lemma split_ws_lstrip s : split_ws (lstrip s) = split_ws s.
Proof.
  unfold split_ws. induction s as [|a s IH]; [reflexivity|]. simpl.
  destruct (is_space a) eqn:Ha; [exact IH|]. simpl. rewrite Ha. reflexivity.
Qed.

Lemma split_ws_rstrip s : split_ws (rstrip s) = split_ws s.
Proof.
  induction s as [|c s IH] using rev_ind; [reflexivity|].
  unfold rstrip in *. rewrite rev_app_distr. simpl.
  destruct (is_space c) eqn:Hc.
  - rewrite IH. unfold split_ws. symmetry. apply split_ws_aux_space. exact Hc.
  - simpl. rewrite rev_involutive. reflexivity.
Qed.

Lemma split_ws_strip s : split_ws (strip s) = split_ws s.
Proof. unfold strip. rewrite split_ws_rstrip. apply split_ws_lstrip. Qed.

End Strings.

(** ** Grading a submission *)

Section Grading.
Import Main Run.

Lemma grade_from_spec qs ua : forall idx rs cc,
  exists new,
    grade_from idx qs ua rs cc = (rs ++ new, cc + Z.of_nat (length (flagged new))) /\
    length new = length qs.
Proof.
  induction qs as [|q qs IH]; intros idx rs cc; cbn [grade_from].
  - exists []. rewrite app_nil_r. simpl. rewrite Z.add_0_r. split; reflexivity.
  - set (r := result_of idx q (default ANone (ua !! str_index idx))).
    destruct (IH (S idx) (rs ++ [r])
                (if Result.correct r then cc + 1 else cc)) as (new & -> & Hlen).
    exists (r :: new). rewrite <- app_assoc. simpl. split; [|lia].
    f_equal. unfold flagged. rewrite filter_cons.
    destruct (Result.correct r) eqn:Hr.
    + rewrite decide_True by reflexivity. cbn [length]. fold (flagged new).
      subst r. cbn [Result.correct result_of] in Hr. rewrite Hr. lia.
    + rewrite decide_False by discriminate. fold (flagged new).
      subst r. cbn [Result.correct result_of] in Hr. rewrite Hr. lia.
Qed.

Lemma grade_spec qs ua :
  exists rs, grade qs ua = (rs, Z.of_nat (length (flagged rs))) /\
             length rs = length qs.
Proof.
  destruct (grade_from_spec qs ua 0 [] 0) as (new & H & Hlen).
  exists new. unfold grade. rewrite H. split; [reflexivity|exact Hlen].
Qed.

Lemma flagged_length rs : (length (flagged rs) <= length rs)%nat.
Proof. apply length_filter. Qed.

Lemma percentage_for_total qs answers :
  Z.of_nat (length qs) < 2 ^ 53 -> is_Some (percentage_for qs answers).
Proof.
  intros Hq. unfold percentage_for.
  destruct (grade_spec qs (default ∅ (answers !! "answers"))) as (rs & -> & Hlen).
  pose proof (flagged_length rs). apply percentage_of_total; simpl; lia.
Qed.

End Grading.

(** ** One submission against a stored exam *)

Section Submission.
Import Main Run Spec.

Lemma list_max_spec l : forall x, is_max (list_max x l) (x :: l).
Proof.
  unfold list_max, is_max.
  induction l as [|y l IH]; intros x; simpl.
  - split; [left|]. intros z Hz. apply list_elem_of_singleton in Hz. lia.
  - destruct (IH (Z.max x y)) as [Hin Hle]. split.
    + apply elem_of_cons in Hin as [->|Hin].
      * destruct (Z.max_spec x y) as [[_ ->]|[_ ->]]; [right; left|left].
      * right; right. exact Hin.
    + intros z Hz. pose proof (Hle (Z.max x y) ltac:(left)).
      apply elem_of_cons in Hz as [->|Hz]; [lia|].
      apply elem_of_cons in Hz as [->|Hz]; [lia|].
      apply Hle. right. exact Hz.
Qed.

Lemma best_of_spec l p :
  l <> [] -> is_max (best_of l p) (map Attempt.percentage l).
Proof.
  intros Hl. unfold best_of. destruct l as [|a l]; [congruence|].
  simpl. apply list_max_spec.
Qed.

(** The record a submission saves. *)
Lemma submit_exam_ok now exam_id answers files e qs old :
  files !! file_name exam_id = Some e ->
  e !! "questions" = Some (VQuestions qs) ->
  attempts_of e = Some old ->
  Z.of_nat (length qs) < 2 ^ 53 ->
  exists rs p,
    grade qs (default ∅ (answers !! "answers")) = (rs, Z.of_nat (length (flagged rs))) /\
    length rs = length qs /\
    percentage_for qs answers = Some p /\
    let a := {| Attempt.timestamp := now;
                Attempt.score := Z.of_nat (length (flagged rs));
                Attempt.total := Z.of_nat (length qs);
                Attempt.percentage := p |} in
    submit_exam now exam_id answers files =
      inr ({| Response.score := Z.of_nat (length (flagged rs));
              Response.total := Z.of_nat (length qs);
              Response.percentage := p;
              Response.results := rs;
              Response.best_score := best_of (old ++ [a]) p;
              Response.attempt_number := Z.of_nat (length (old ++ [a]));
              Response.improved :=
                if (1 <? length (old ++ [a]))%nat
                then best_of (old ++ [a]) p <=? p else false |},
           <[file_name exam_id :=
               <["last_attempt" := VStr now]>
                 (<["attempt_count" := VInt (Z.of_nat (length (old ++ [a])))]>
                    (<["best_score" := VInt (best_of (old ++ [a]) p)]>
                       (<["attempts" := VAttempts (old ++ [a])]> e)))]> files).
Proof.
  intros Hf Hq Ha Hlen.
  destruct (grade_spec qs (default ∅ (answers !! "answers"))) as (rs & Hg & Hrs).
  destruct (percentage_for_total qs answers Hlen) as [p Hp].
  exists rs, p. split; [exact Hg|]. split; [exact Hrs|]. split; [exact Hp|].
  unfold submit_exam. rewrite Hf, Hq.
  unfold percentage_for in Hp. rewrite Hg in *. simpl in Hp. rewrite Hp, Ha.
  reflexivity.
Qed.

Lemma not_history_key k :
  k ∉ history_keys ->
  k <> "attempts"%string /\ k <> "best_score"%string /\
  k <> "attempt_count"%string /\ k <> "last_attempt"%string.
Proof.
  unfold history_keys. intros H. repeat split; intros ->; apply H;
    repeat (first [left; reflexivity | right]).
Qed.

(** What a submission leaves in the record it updates. *)
Lemma submit_exam_record now exam_id answers files e qs old :
  files !! file_name exam_id = Some e ->
  e !! "questions" = Some (VQuestions qs) ->
  attempts_of e = Some old ->
  Z.of_nat (length qs) < 2 ^ 53 ->
  exists resp files' e' a,
    submit_exam now exam_id answers files = inr (resp, files') /\
    files' = <[file_name exam_id := e']> files /\
    percentage_for qs answers = Some (Attempt.percentage a) /\
    Attempt.timestamp a = now /\
    Response.percentage resp = Attempt.percentage a /\
    Response.best_score resp = best_of (old ++ [a]) (Attempt.percentage a) /\
    Response.attempt_number resp = Z.of_nat (length old) + 1 /\
    Response.improved resp =
      (if (1 <? length (old ++ [a]))%nat
       then Response.best_score resp <=? Response.percentage resp else false) /\
    e' !! "attempts" = Some (VAttempts (old ++ [a])) /\
    e' !! "best_score" = Some (VInt (Response.best_score resp)) /\
    e' !! "attempt_count" = Some (VInt (Z.of_nat (length old) + 1)) /\
    e' !! "last_attempt" = Some (VStr now) /\
    (forall k, k ∉ history_keys -> e' !! k = e !! k).
Proof.
  intros Hf Hq Ha Hlen.
  destruct (submit_exam_ok now exam_id answers files e qs old Hf Hq Ha Hlen)
    as (rs & p & Hg & Hrs & Hp & Hs).
  set (a := {| Attempt.timestamp := now;
               Attempt.score := Z.of_nat (length (flagged rs));
               Attempt.total := Z.of_nat (length qs);
               Attempt.percentage := p |}) in *.
  cbv zeta in Hs. eexists _, _, _, a. split; [exact Hs|].
  split; [reflexivity|].
  cbn [Response.percentage Response.best_score Response.attempt_number
       Response.improved].
  assert (Hl : length (old ++ [a]) = S (length old))
    by (rewrite length_app; simpl; lia).
  split; [exact Hp|]. split; [reflexivity|]. split; [reflexivity|].
  split; [reflexivity|]. split; [rewrite Hl; lia|]. split; [reflexivity|].
  split; [rewrite !lookup_insert_ne by done; apply lookup_insert_eq|].
  split; [rewrite !lookup_insert_ne by done; apply lookup_insert_eq|].
  split; [rewrite !lookup_insert_ne by done; rewrite lookup_insert_eq, Hl;
          do 2 f_equal; lia|].
  split; [apply lookup_insert_eq|].
  intros k Hk. apply not_history_key in Hk as (H1 & H2 & H3 & H4).
  rewrite !lookup_insert_ne by congruence. reflexivity.
Qed.

End Submission.

(** ** The aggregate percentage *)

Section Percentage.
Import Main Run Examples.



(** The same submission, evaluated: 7 of 9 is 78 percent, and the first
    attempt is not flagged as improved. *)
Example submit_7_of_9 :
  match submit_exam now1 "CS101_exam_20260101_120000_ab12cd34" (body9 7) files9 with
  | inr (resp, _) =>
      (Response.score resp, Response.total resp, Response.percentage resp,
       Response.attempt_number resp, Response.improved resp) = (7, 9, 78, 1, false)
  | inl _ => False
  end.
Proof. vm_compute. reflexivity. Qed.

(** Binary64 shows in the percentage: 23 of 40 is 57.49999999999999
    before rounding, hence 57, and 1 of 8 is 12.5, hence 12. *)
Example percentage_23_of_40 :
  percentage_of 23 40 = Some 57 /\ percentage_of 1 8 = Some 12.
Proof. split; vm_compute; reflexivity. Qed.

End Percentage.

(** ** The attempt history *)

Section History.
Import Main Run Spec Examples.

Lemma attempts_of_lookup (e : gmap string value) l :
  e !! "attempts" = Some (VAttempts l) -> attempts_of e = Some l.
Proof. unfold attempts_of. intros ->. reflexivity. Qed.

(** A run of submissions appends one attempt per submission, in order, and
    leaves the best score at the maximum of the history. *)
Lemma submit_all_spec exam_id qs subs : forall files e old,
  files !! file_name exam_id = Some e ->
  e !! "questions" = Some (VQuestions qs) ->
  attempts_of e = Some old ->
  Z.of_nat (length qs) < 2 ^ 53 ->
  exists files' e' new,
    submit_all exam_id subs files = inr files' /\
    files' !! file_name exam_id = Some e' /\
    e' !! "questions" = Some (VQuestions qs) /\
    attempts_of e' = Some (old ++ new) /\
    Forall2 (fun sub a => percentage_for qs sub.2 = Some (Attempt.percentage a) /\
                          Attempt.timestamp a = sub.1) subs new /\
    (subs <> [] ->
     exists b, e' !! "best_score" = Some (VInt b) /\
               is_max b (map Attempt.percentage (old ++ new))) /\
    (forall k, k ∉ history_keys -> e' !! k = e !! k).
Proof.
  induction subs as [|[now answers] subs IH]; intros files e old Hf Hq Ha Hlen.
  - exists files, e, []. rewrite app_nil_r. simpl.
    repeat split; try assumption; [constructor|congruence].
  - destruct (submit_exam_record now exam_id answers files e qs old Hf Hq Ha Hlen)
      as (resp & files1 & e1 & a & Hs & -> & Hp & Ht & _ & Hb & _ & _ & Hatt & Hbest & _ & _ & Hframe).
    assert (Hq1 : e1 !! "questions" = Some (VQuestions qs)).
    { rewrite Hframe; [exact Hq|]. unfold history_keys. intros Hin.
      repeat (apply elem_of_cons in Hin as [Hin|Hin]; [discriminate|]).
      inversion Hin. }
    destruct (IH (<[file_name exam_id := e1]> files) e1 (old ++ [a])
                (lookup_insert_eq _ _ _) Hq1 (attempts_of_lookup _ _ Hatt) Hlen)
      as (files' & e' & new & Hrun & Hf' & Hq' & Ha' & Hall & Hmax & Hfr').
    exists files', e', (a :: new). simpl. rewrite Hs.
    rewrite <- app_assoc in Ha', Hmax. simpl in Ha', Hmax.
    split; [exact Hrun|]. split; [exact Hf'|]. split; [exact Hq'|].
    split; [exact Ha'|]. split; [constructor; [split; assumption|exact Hall]|].
    split.
    + intros _. destruct subs as [|s subs].
      * inversion Hall; subst. simpl in Hrun. injection Hrun as <-.
        rewrite lookup_insert_eq in Hf'. injection Hf' as <-.
        exists (Response.best_score resp). split; [exact Hbest|].
        rewrite Hb. apply best_of_spec. destruct old; discriminate.
      * apply Hmax. discriminate.
    + intros k Hk. rewrite Hfr' by exact Hk. apply Hframe. exact Hk.
Qed.

(** C3. After a run of [k >= 1] submissions against a stored exam the
    persisted best score is the maximum of the percentages of all the
    attempts of the history, the new ones included; on a history that
    starts empty it is the maximum of the [k] submitted percentages. *)
Theorem best_score_is_max exam_id files exam_data questions old subs :
  files !! file_name exam_id = Some exam_data ->
  exam_data !! "questions" = Some (VQuestions questions) ->
  attempts_of exam_data = Some old ->
  Z.of_nat (length questions) < 2 ^ 53 ->
  subs <> [] ->
  exists files' exam_data' pcts b,
    submit_all exam_id subs files = inr files' /\
    files' !! file_name exam_id = Some exam_data' /\
    Forall2 (fun sub p => percentage_for questions sub.2 = Some p) subs pcts /\
    percentages exam_data' = percentages exam_data ++ pcts /\
    exam_data' !! "best_score" = Some (VInt b) /\
    is_max b (percentages exam_data ++ pcts) /\
    (old = [] -> is_max b pcts).
Proof.
  intros Hf Hq Ha Hlen Hsubs.
  destruct (submit_all_spec exam_id questions subs files exam_data old Hf Hq Ha Hlen)
    as (files' & e' & new & Hrun & Hf' & _ & Ha' & Hall & Hmax & _).
  destruct (Hmax Hsubs) as (b & Hb & Hm).
  exists files', e', (map Attempt.percentage new), b.
  unfold percentages. rewrite Ha, Ha'. simpl. rewrite map_app in Hm |- *.
  split; [exact Hrun|]. split; [exact Hf'|]. split.
  { clear - Hall. induction Hall as [|s a ss aa [Hp _] _ IH]; constructor; assumption. }
  split; [reflexivity|]. split; [exact Hb|]. split; [exact Hm|].
  intros ->. exact Hm.
Qed.

Lemma best_score_is_max_witness :
  files9 !! file_name "CS101_exam_20260101_120000_ab12cd34" = Some exam9 /\
  exam9 !! "questions" = Some (VQuestions questions9) /\
  attempts_of exam9 = Some [] /\
  Z.of_nat (length questions9) < 2 ^ 53 /\
  [(now1, body9 7); (now2, body9 4)] <> [] /\
  exists files' exam_data' pcts b,
    submit_all "CS101_exam_20260101_120000_ab12cd34"
      [(now1, body9 7); (now2, body9 4)] files9 = inr files' /\
    files' !! file_name "CS101_exam_20260101_120000_ab12cd34" = Some exam_data' /\
    Forall2 (fun sub p => percentage_for questions9 sub.2 = Some p)
            [(now1, body9 7); (now2, body9 4)] pcts /\
    percentages exam_data' = percentages exam9 ++ pcts /\
    exam_data' !! "best_score" = Some (VInt b) /\
    is_max b (percentages exam9 ++ pcts) /\
    (@nil Attempt.t = [] -> is_max b pcts).
Proof.
  assert (H1 : files9 !! file_name "CS101_exam_20260101_120000_ab12cd34" = Some exam9)
    by reflexivity.
  assert (H2 : exam9 !! "questions" = Some (VQuestions questions9)) by reflexivity.
  assert (H3 : attempts_of exam9 = Some []) by reflexivity.
  assert (H4 : Z.of_nat (length questions9) < 2 ^ 53) by (vm_compute; reflexivity).
  assert (H5 : [(now1, body9 7); (now2, body9 4)] <> []) by discriminate.
  split; [exact H1|]. split; [exact H2|]. split; [exact H3|]. split; [exact H4|].
  split; [exact H5|].
  exact (best_score_is_max "CS101_exam_20260101_120000_ab12cd34" files9 exam9
           questions9 [] [(now1, body9 7); (now2, body9 4)] H1 H2 H3 H4 H5).
Defined.

(** The run of the example: 78 percent, then 44; the best score stays 78
    and the second attempt is not an improvement. *)
Example run_78_44 :
  match submit_all "CS101_exam_20260101_120000_ab12cd34"
          [(now1, body9 7); (now2, body9 4)] files9 with
  | inr files' =>
      (files' !! "CS101_exam_20260101_120000_ab12cd34.json"%string)
        ≫= (fun e => e !! "best_score") = Some (VInt 78) /\
      ((files' !! "CS101_exam_20260101_120000_ab12cd34.json"%string)
        ≫= (fun e => Some (percentages e))) = Some [78; 44]
  | inl _ => False
  end.
Proof. vm_compute. split; reflexivity. Qed.

(** The histories the endpoints produce are consistent: a new record has
    no attempt, a reset leaves none, and a submission recomputes the best
    score from the whole history. *)
Lemma history_consistent_new exam_id title course created provider qs ids names :
  history_consistent (new_exam_data exam_id title course created provider qs ids names).
Proof. unfold history_consistent. vm_compute. exact I. Qed.

Lemma history_consistent_submit now exam_id answers files resp files' :
  submit_exam now exam_id answers files = inr (resp, files') ->
  exists e', files' !! file_name exam_id = Some e' /\ history_consistent e'.
Proof.
  unfold submit_exam.
  destruct (files !! file_name exam_id) as [e|] eqn:Hf; [|discriminate].
  destruct (e !! "questions") as [[| | | | |qs|]|]; try discriminate.
  destruct (grade qs (default ∅ (answers !! "answers"))) as [rs cc].
  destruct (percentage_of cc (Z.of_nat (length qs))) as [p|]; [|discriminate].
  destruct (attempts_of e) as [old|]; [|discriminate].
  intros [= <- <-]. eexists. split; [apply lookup_insert_eq|].
  unfold history_consistent, attempts_of.
  rewrite !lookup_insert_ne by done. rewrite lookup_insert_eq.
  destruct (old ++ _) as [|a l] eqn:El; [exact I|]. rewrite <- El.
  eexists. split; [rewrite !lookup_insert_ne by done; apply lookup_insert_eq|].
  apply best_of_spec. rewrite El. discriminate.
Qed.

Lemma reset_exam_attempts_spec exam_id files e :
  files !! file_name exam_id = Some e ->
  exists e',
    reset_exam_attempts exam_id files = inr (<[file_name exam_id := e']> files) /\
    e' !! "attempts" = Some (VAttempts []) /\
    e' !! "best_score" = Some VNone /\
    e' !! "attempt_count" = Some (VInt 0) /\
    e' !! "last_attempt" = Some VNone /\
    (forall k, k ∉ history_keys -> e' !! k = e !! k).
Proof.
  intros Hf. unfold reset_exam_attempts. rewrite Hf. eexists. split; [reflexivity|].
  split; [rewrite !lookup_insert_ne by done; apply lookup_insert_eq|].
  split; [rewrite !lookup_insert_ne by done; apply lookup_insert_eq|].
  split; [rewrite !lookup_insert_ne by done; apply lookup_insert_eq|].
  split; [apply lookup_insert_eq|].
  intros k Hk. apply not_history_key in Hk as (H1 & H2 & H3 & H4).
  rewrite !lookup_insert_ne by congruence. reflexivity.
Qed.

Lemma history_consistent_reset exam_id files files' :
  reset_exam_attempts exam_id files = inr files' ->
  exists e', files' !! file_name exam_id = Some e' /\
             attempts_of e' = Some [] /\ history_consistent e'.
Proof.
  unfold reset_exam_attempts.
  destruct (files !! file_name exam_id) as [e|] eqn:Hf; [|discriminate].
  intros [= <-]. eexists. split; [apply lookup_insert_eq|].
  unfold history_consistent, attempts_of.
  rewrite !lookup_insert_ne by done. rewrite lookup_insert_eq. split; [reflexivity|exact I].
Qed.

(** Whatever the record holds as its best score, the flag of an attempt
    that is not the first compares the new percentage with the maximum of
    the percentages of the attempts made before. *)
Lemma improved_flag_prior_attempts now exam_id answers files e qs old :
  files !! file_name exam_id = Some e ->
  e !! "questions" = Some (VQuestions qs) ->
  attempts_of e = Some old ->
  Z.of_nat (length qs) < 2 ^ 53 ->
  old <> [] ->
  exists resp files' b,
    submit_exam now exam_id answers files = inr (resp, files') /\
    is_max b (map Attempt.percentage old) /\
    Response.improved resp = (b <=? Response.percentage resp).
Proof.
  intros Hf Hq Ha Hlen Hold.
  destruct (submit_exam_record now exam_id answers files e qs old Hf Hq Ha Hlen)
    as (resp & files1 & e1 & a & Hs & _ & _ & _ & Hpa & Hb & _ & Hi & _).
  exists resp, files1, (best_of old 0). split; [exact Hs|].
  pose proof (best_of_spec old 0 Hold) as [Hin Hle].
  split; [split; assumption|].
  assert (Hl : length (old ++ [a]) = S (length old))
    by (rewrite length_app; simpl; lia).
  rewrite Hi, Hl.
  replace (1 <? S (length old))%nat with true
    by (symmetry; apply Nat.ltb_lt; destruct old; [congruence|simpl; lia]).
  rewrite Hb, Hpa.
  destruct (best_of_spec (old ++ [a]) (Attempt.percentage a)) as [Hin' Hle'].
  { destruct old; discriminate. }
  set (bn := best_of (old ++ [a]) (Attempt.percentage a)) in *.
  rewrite map_app in Hin', Hle'. simpl map in Hin', Hle'.
  assert (Attempt.percentage a <= bn) by (apply Hle', elem_of_app; right; left).
  assert (best_of old 0 <= bn) by (apply Hle', elem_of_app; left; exact Hin).
  apply eq_true_iff_eq. rewrite !Z.leb_le. split; [lia|].
  intros Hbp. apply elem_of_app in Hin' as [Hin'|Hin'].
  - pose proof (Hle _ Hin'). lia.
  - apply list_elem_of_singleton in Hin'. lia.
Qed.



(** A second attempt that equals the best score is an improvement; one
    below it is not. *)
Example improved_on_equal_score :
  match submit_exam now1 "CS101_exam_20260101_120000_ab12cd34" (body9 7) files9 with
  | inr (_, files1) =>
      match submit_exam now2 "CS101_exam_20260101_120000_ab12cd34" (body9 7) files1,
            submit_exam now2 "CS101_exam_20260101_120000_ab12cd34" (body9 6) files1 with
      | inr (same, _), inr (lower, _) =>
          Response.improved same = true /\ Response.attempt_number same = 2 /\
          Response.improved lower = false
      | _, _ => False
      end
  | inl _ => False
  end.
Proof. vm_compute. repeat split; reflexivity. Qed.



End History.

(** ** True/false answers *)

Section TrueFalse.
Import Main.

Lemma upper_lower_char c : upper_char (lower_char c) = upper_char c.
Proof.
  unfold upper_char, lower_char.
  destruct (N.leb_spec 65 c), (N.leb_spec c 90), (N.leb_spec 97 c),
    (N.leb_spec c 122); simpl;
    repeat match goal with
      | |- context [(?a <=? ?b)%N] => destruct (N.leb_spec a b); simpl
      end; lia.
Qed.

Lemma upper_lower s : upper (lower s) = upper s.
Proof.
  unfold upper, lower. rewrite map_map. apply map_ext. apply upper_lower_char.
Qed.

Lemma text_eqb_eq a b : text_eqb a b = true <-> a = b.
Proof. unfold text_eqb. apply bool_decide_eq_true. Qed.

(** C2 (as amended). A boolean answer to a true/false question is graded
    by equality with the stored boolean; any other answer is coerced to a
    string and graded correct exactly when that string is, whatever the
    case, the word [true] for a stored true and the word [false] for a
    stored false. Every answer graded correct is also correct by the
    token rule of the parser, which is weaker. The string [True] and the
    boolean true are correct against a stored true, the string [yes] is
    not. *)
Theorem true_false_grading (correct_answer : bool) (a : answer) :
  (grade_true_false correct_answer a = true <->
   match a with
   | ABool b => b = correct_answer
   | _ => lower (str a) = lit (if correct_answer then "true" else "false")
   end) /\
  implb (grade_true_false correct_answer a) (Spec.true_false correct_answer a) = true /\
  grade_true_false true (AStr (lit "True")) = true /\
  grade_true_false true (ABool true) = true /\
  grade_true_false true (AStr (lit "yes")) = false.
Proof.
  assert (Hs : forall s, text_eqb (lower s) (lower (str_bool correct_answer)) = true <->
                         lower s = lit (if correct_answer then "true" else "false")).
  { intros s. rewrite text_eqb_eq. destruct correct_answer; reflexivity. }
  assert (Hi : forall s, implb (text_eqb (lower s) (lower (str_bool correct_answer)))
                           (Bool.eqb (Spec.reads_true s) correct_answer) = true).
  { intros s. destruct (text_eqb _ _) eqn:E; [|reflexivity]. simpl.
    apply Hs in E. unfold Spec.reads_true. rewrite <- upper_lower, E.
    destruct correct_answer; reflexivity. }
  split; [|split; [|repeat split; reflexivity]].
  - destruct a as [|b|z|s];
      [apply (Hs (str ANone))| |apply (Hs (str (AInt z)))|apply (Hs s)].
    destruct b, correct_answer; simpl; split; congruence.
  - destruct a as [|b|z|s];
      [apply (Hi (str ANone))| |apply (Hi (str (AInt z)))|apply (Hi s)].
    simpl. destruct (Bool.eqb b correct_answer); reflexivity.
Qed.

(** C2 (as stated) fails: the string [not true] contains the token and
    would be correct against a stored true, and the string [maybe] reads
    as false and would be correct against a stored false; both are graded
    incorrect. *)
Lemma true_false_not_token_presence :
  Spec.true_false true (AStr (lit "not true")) = true /\
  grade_true_false true (AStr (lit "not true")) = false /\
  Spec.true_false false (AStr (lit "maybe")) = true /\
  grade_true_false false (AStr (lit "maybe")) = false.
Proof. repeat split; reflexivity. Qed.

End TrueFalse.

(** ** Short answers *)

Section ShortAnswer.
Import Main.



End ShortAnswer.

(** ** The response parser *)

Section Parser.
Import ExamGenerator Examples Spec.

Lemma mc_line_letters st raw st' :
  mc_line st raw = Some st' ->
  option_letters (mc_options st) -> option_letters (mc_options st').
Proof.
  unfold mc_line. intros H Hst.
  destruct (is_option_line (strip raw)) eqn:Hopt.
  - destruct (strip raw) as [|letter [|p r]] eqn:El; try discriminate.
    injection H as <-. simpl. intros k Hk.
    destruct (decide (letter = k)) as [<-|Hne].
    + simpl in Hopt. apply andb_prop in Hopt as [Hopt _].
      apply andb_prop in Hopt as [H1 H2]. apply N.leb_le in H1, H2. lia.
    + rewrite lookup_insert_ne in Hk by exact Hne. apply Hst. exact Hk.
  - destruct (startswith (strip raw) (lit "CORRECT:")).
    + destruct (upper (field_value (strip raw))); [discriminate|].
      injection H as <-. exact Hst.
    + destruct (startswith (strip raw) (lit "EXPLANATION:"));
        injection H as <-; exact Hst.
Qed.

Lemma mc_lines_letters lines : forall st st',
  mc_lines st lines = Some st' ->
  option_letters (mc_options st) -> option_letters (mc_options st').
Proof.
  induction lines as [|l lines IH]; intros st st' H Hst; simpl in H.
  - injection H as <-. exact Hst.
  - destruct (mc_line st l) as [st1|] eqn:E; [|discriminate].
    apply (IH st1 st' H). apply (mc_line_letters st l st1 E Hst).
Qed.

(** What the parser does guarantee for a multiple choice record: a
    question text that is not empty and four options lettered among A to
    D. *)
Lemma parse_multiple_choice_shape s q :
  q ∈ _parse_multiple_choice s ->
  exists question options correct_answer explanation,
    q = multiple_choice question options correct_answer explanation /\
    question <> [] /\ size options = 4%nat /\ option_letters options /\
    length correct_answer = 1%nat.
Proof.
  unfold _parse_multiple_choice, collect. intros Hq.
  apply list_elem_of_omap in Hq as (sec & _ & Hsec).
  destruct (mc_section sec) as [r|] eqn:E; [|discriminate]. subst r.
  unfold mc_section in E.
  destruct (mc_lines _ _) as [st|] eqn:El; [|discriminate].
  assert (Hl : option_letters (mc_options st)).
  { apply (mc_lines_letters _ _ _ El). intros k [x Hx].
    cbn [mc_options] in Hx. rewrite lookup_empty in Hx. discriminate. }
  assert (Hc : forall c, mc_correct st = Some c -> length c = 1%nat).
  { clear E Hl. revert El. generalize (tail (split NL (strip sec))).
    assert (Hgen : forall lines st0,
      (forall c, mc_correct st0 = Some c -> length c = 1%nat) ->
      mc_lines st0 lines = Some st ->
      forall c, mc_correct st = Some c -> length c = 1%nat).
    { induction lines as [|l lines IH]; intros st0 H0 H; simpl in H.
      - injection H as <-. exact H0.
      - destruct (mc_line st0 l) as [st1|] eqn:E1; [|discriminate].
        apply (IH st1); [|exact H]. clear IH H. unfold mc_line in E1.
        destruct (is_option_line (strip l)).
        + destruct (strip l); injection E1 as <-; exact H0.
        + destruct (startswith (strip l) (lit "CORRECT:")).
          * destruct (upper (field_value (strip l))); [discriminate|].
            injection E1 as <-. simpl. intros c [= <-]. reflexivity.
          * destruct (startswith (strip l) (lit "EXPLANATION:"));
              injection E1 as <-; exact H0. }
    intros lines. apply Hgen. simpl. discriminate. }
  destruct (mc_correct st) as [c|] eqn:Ec; [|discriminate].
  destruct (negb (text_eqb (strip (hd [] (split NL (strip sec)))) []) &&
            (size (mc_options st) =? 4)%nat) eqn:Hcond; [|discriminate].
  injection E as <-. apply andb_prop in Hcond as [Hne Hsz].
  eexists _, _, _, _. split; [reflexivity|].
  split.
  { intros Heq. rewrite Heq in Hne. discriminate. }
  split; [apply Nat.eqb_eq; exact Hsz|]. split; [exact Hl|]. apply Hc. reflexivity.
Qed.

(** *** Splitting a response into sections *)

Lemma lstrip_all_space w t : all_space w -> lstrip (w ++ t) = lstrip t.
Proof.
  induction 1 as [|c w Hc _ IH]; [reflexivity|]. simpl. rewrite Hc. exact IH.
Qed.

Lemma lstrip_app_nonempty l r : lstrip l <> [] -> lstrip (l ++ r) = lstrip l ++ r.
Proof.
  induction l as [|c l IH]; simpl; [congruence|].
  destruct (is_space c); [exact IH|reflexivity].
Qed.

Lemma lstrip_ends_nonspace x : x <> [] -> ends_nonspace x -> lstrip x <> [].
Proof.
  induction x as [|c x IH]; [congruence|]. intros _ He. simpl.
  destruct (is_space c) eqn:Hc; [|discriminate].
  destruct x as [|c' x'].
  - rewrite (He [] c eq_refl) in Hc. discriminate.
  - apply IH; [discriminate|]. intros y a Hy. apply (He (c :: y) a).
    rewrite Hy. reflexivity.
Qed.

Lemma lstrip_starts_nonspace b : starts_nonspace b -> lstrip b = b.
Proof. intros (c & r & -> & Hc). simpl. rewrite Hc. reflexivity. Qed.

Lemma startswith_nil s : startswith s [] = true.
Proof. destruct s; reflexivity. Qed.

Lemma startswith_Q_app l rest :
  l <> [] -> rest = [] \/ (exists r, rest = NL :: r) ->
  startswith l (lit "Q:") = false -> startswith (l ++ rest) (lit "Q:") = false.
Proof.
  change (lit "Q:") with [81%N; 58%N].
  intros Hl Hrest. destruct l as [|a [|b l]]; [congruence| |]; cbn [app startswith].
  - intros _. destruct Hrest as [->|[r ->]]; cbn [startswith].
    + apply andb_false_r.
    + change (58 =? NL)%N with false. cbn [andb]. apply andb_false_r.
  - rewrite !startswith_nil. exact (fun H => H).
Qed.

(** Passing the characters of a match. *)
Lemma re_split_aux_skip l r cur :
  re_split_aux (l ++ r) (length l) cur = re_split_aux r 0 cur.
Proof. induction l as [|c l IH]; [reflexivity|exact IH]. Qed.

(** A text without a marker is read as it is, up to the next marker. *)
Lemma re_split_aux_plain x : forall rest cur,
  marker_free x -> ends_nonspace x ->
  rest = [] \/ (exists r, rest = NL :: r) ->
  re_split_aux (x ++ rest) 0 cur = re_split_aux rest 0 (rev x ++ cur).
Proof.
  induction x as [|c x IH]; intros rest cur Hfree Hend Hrest; [reflexivity|].
  assert (Hfree' : marker_free x).
  { intros a y Hy. apply (Hfree (c :: a) y). rewrite Hy. reflexivity. }
  assert (Hend' : ends_nonspace x).
  { intros y a Hy. apply (Hend (c :: y) a). rewrite Hy. reflexivity. }
  assert (Hgo : re_split_aux (x ++ rest) 0 (c :: cur) =
                re_split_aux rest 0 (rev (c :: x) ++ cur)).
  { rewrite (IH rest (c :: cur) Hfree' Hend' Hrest). simpl.
    rewrite <- app_assoc. reflexivity. }
  cbn [app re_split_aux]. destruct (c =? NL)%N eqn:Hc; [|exact Hgo].
  apply N.eqb_eq in Hc. subst c.
  assert (Hx : x <> []).
  { intros ->. pose proof (Hend [] NL eq_refl) as H. discriminate. }
  assert (Hm : marker_len (x ++ rest) = None).
  { unfold marker_len. pose proof (lstrip_ends_nonspace x Hx Hend') as Hl.
    rewrite (lstrip_app_nonempty x rest Hl).
    rewrite (startswith_Q_app _ rest Hl Hrest (Hfree [] x eq_refl)). reflexivity. }
  rewrite Hm. exact Hgo.
Qed.

(** A marker closes the section read so far and is passed whole. *)
Lemma re_split_aux_marker sep b rest cur :
  is_marker sep -> starts_nonspace b ->
  re_split_aux (sep ++ b ++ rest) 0 cur = rev cur :: re_split_aux (b ++ rest) 0 [].
Proof.
  intros (w1 & w2 & H1 & H2 & ->) Hb.
  assert (Hbr : lstrip (w2 ++ b ++ rest) = b ++ rest).
  { rewrite (lstrip_all_space w2 _ H2).
    destruct Hb as (c & r & -> & Hc). simpl. rewrite Hc. reflexivity. }
  assert (Hm : marker_len ((w1 ++ lit "Q:" ++ w2) ++ b ++ rest) =
               Some (length (w1 ++ lit "Q:" ++ w2))).
  { unfold marker_len.
    assert (E1 : lstrip ((w1 ++ lit "Q:" ++ w2) ++ b ++ rest) =
                 81%N :: 58%N :: w2 ++ b ++ rest).
    { rewrite <- !app_assoc, (lstrip_all_space w1 _ H1). reflexivity. }
    rewrite E1.
    assert (E2 : startswith (81%N :: 58%N :: w2 ++ b ++ rest) (lit "Q:") = true).
    { change (lit "Q:") with [81%N; 58%N]. cbn [startswith].
      rewrite startswith_nil. reflexivity. }
    rewrite E2.
    change (drop 2 (81%N :: 58%N :: w2 ++ b ++ rest)) with (w2 ++ b ++ rest).
    rewrite Hbr. f_equal.
    rewrite !length_app. simpl. lia. }
  cbn [app re_split_aux]. rewrite N.eqb_refl, Hm.
  rewrite re_split_aux_skip. reflexivity.
Qed.

Lemma re_split_aux_response blocks : forall x cur,
  marker_free x -> ends_nonspace x ->
  Forall (fun sb => is_marker sb.1 /\ block_text sb.2) blocks ->
  re_split_aux (response x blocks) 0 cur = (rev cur ++ x) :: map snd blocks.
Proof.
  unfold response.
  induction blocks as [|[sep b] blocks IH]; intros x cur Hfree Hend Hall.
  - simpl. rewrite (re_split_aux_plain x [] cur Hfree Hend (or_introl eq_refl)).
    simpl. rewrite rev_app_distr, rev_involutive. reflexivity.
  - inversion Hall as [|? ? [Hsep (Hs & He & Hf)] Hall']; subst. simpl in Hsep, Hs, He, Hf.
    cbn [map concat fst snd]. rewrite <- !app_assoc.
    rewrite (re_split_aux_plain x _ cur Hfree Hend).
    2: { right. destruct Hsep as (w1 & w2 & _ & _ & ->). eexists. reflexivity. }
    rewrite (re_split_aux_marker sep b _ _ Hsep Hs).
    rewrite rev_app_distr, rev_involutive.
    f_equal. apply (IH b [] Hf He Hall').
Qed.

Lemma collect_cons parse b bs :
  collect parse (b :: bs) =
  match parse b with
  | inl (Some q) => q :: collect parse bs
  | _ => collect parse bs
  end.
Proof. unfold collect. simpl. destruct (parse b) as [[q|]|]; reflexivity. Qed.

Lemma collect_length parse bs :
  length (collect parse bs) = length (filter (fun b => keeps parse b = true) bs).
Proof.
  induction bs as [|b bs IH]; [reflexivity|].
  rewrite collect_cons, filter_cons.
  destruct (decide (keeps parse b = true)) as [Hk|Hk]; unfold keeps in Hk;
    destruct (parse b) as [[q|]|]; try discriminate; try congruence;
    cbn [length]; congruence.
Qed.

(** After a preamble, and with a line break before every [Q:], the
    sections of a response are its blocks, and each parser returns as many
    records as there are blocks it keeps: the malformed ones are dropped
    without an exception. The preamble may be empty. *)
Lemma parse_response pre blocks :
  marker_free pre -> ends_nonspace pre ->
  Forall (fun sb => is_marker sb.1 /\ block_text sb.2) blocks ->
  sections (response pre blocks) = map snd blocks /\
  length (_parse_multiple_choice (response pre blocks)) =
    length (filter (fun b => keeps mc_section b = true) (map snd blocks)) /\
  length (_parse_true_false (response pre blocks)) =
    length (filter (fun b => keeps tf_section b = true) (map snd blocks)) /\
  length (_parse_short_answer (response pre blocks)) =
    length (filter (fun b => keeps sa_section b = true) (map snd blocks)).
Proof.
  intros Hfree Hend Hall.
  assert (Hs : sections (response pre blocks) = map snd blocks).
  { unfold sections, re_split_Q.
    rewrite (re_split_aux_response blocks pre [] Hfree Hend Hall). reflexivity. }
  unfold _parse_multiple_choice, _parse_true_false, _parse_short_answer.
  rewrite Hs, !collect_length. repeat split; reflexivity.
Qed.

Lemma marker_free_b_ok b : marker_free_b b = true -> marker_free b.
Proof.
  induction b as [|c b IH]; intros H x y Hxy.
  - destruct x; discriminate.
  - cbn [marker_free_b] in H. apply andb_prop in H as [Hc Hb].
    destruct x as [|a x]; injection Hxy as -> ->.
    + rewrite N.eqb_refl in Hc. apply negb_true_iff in Hc. exact Hc.
    + apply (IH Hb x y). reflexivity.
Qed.

Lemma block_text_b_ok b : block_text_b b = true -> block_text b.
Proof.
  unfold block_text_b, block_text.
  destruct b as [|c r]; [discriminate|].
  destruct (rev (c :: r)) as [|c' r'] eqn:Er; [discriminate|].
  intros H. apply andb_prop in H as [H Hf]. apply andb_prop in H as [Hc Hc'].
  apply negb_true_iff in Hc, Hc'.
  split; [exists c, r; split; [reflexivity|exact Hc]|].
  split; [|apply marker_free_b_ok; exact Hf].
  intros y a Hy. rewrite Hy, rev_app_distr in Er. injection Er as -> _. exact Hc'.
Qed.

(** The response of the example: its three blocks are its sections, and
    the parser keeps the two that are well formed. *)
Example parse_three_blocks :
  response (lit preamble) three_blocks =
    lit (preamble ++ nl ++ block_B ++ nl ++ nl ++ block_malformed
         ++ nl ++ nl ++ block_B)%string /\
  sections (response (lit preamble) three_blocks) = map snd three_blocks /\
  length (_parse_multiple_choice (response (lit preamble) three_blocks)) = 2%nat.
Proof.
  split; [vm_compute; reflexivity|].
  assert (Hm1 : is_marker marker_line).
  { exists [], [32%N]. repeat split; [constructor|repeat constructor]. }
  assert (Hm2 : is_marker marker_blank).
  { exists [10%N], [32%N]. repeat split; repeat constructor. }
  destruct (parse_response (lit preamble) three_blocks) as (Hs & Hmc & _).
  - apply marker_free_b_ok. vm_compute. reflexivity.
  - apply (block_text_b_ok (lit preamble)). vm_compute. reflexivity.
  - unfold three_blocks.
    repeat (constructor; [split; [assumption|apply block_text_b_ok; vm_compute; reflexivity]|]).
    constructor.
  - split; [exact Hs|]. rewrite Hmc. vm_compute. reflexivity.
Qed.

Local Open Scope string_scope.

(** C7 fails on the code: the letter after [CORRECT:] is taken as it is.
    A block whose correct letter is [E] is kept, with its four options A
    to D and a correct answer that is none of them. *)
Theorem parse_mc_correct_letter_unchecked :
  match _parse_multiple_choice (lit (preamble ++ nl ++ block_E)) with
  | [multiple_choice question options correct_answer _] =>
      question <> [] /\ size options = 4%nat /\
      correct_answer = lit "E" /\ options !! 69%N = None
  | _ => False
  end.
Proof. vm_compute. repeat split; try reflexivity. discriminate. Qed.

(** C8 fails on the code: the marker is only found after a line break. A
    response that begins with its first block loses it, as the preamble;
    after a preamble, or a line break, the same block is kept. The same
    holds for the three parsers. *)
Theorem parse_drops_leading_block :
  _parse_multiple_choice (lit block_B) = [] /\
  length (_parse_multiple_choice (lit (nl ++ block_B))) = 1%nat /\
  length (_parse_multiple_choice
            (lit (block_B ++ nl ++ nl ++ block_malformed ++ nl ++ nl ++ block_B)))
    = 1%nat /\
  length (_parse_multiple_choice
            (lit (preamble ++ nl ++ block_B ++ nl ++ nl ++ block_malformed
                  ++ nl ++ nl ++ block_B))) = 2%nat /\
  _parse_true_false (lit block_tf) = [] /\
  length (_parse_true_false (lit (preamble ++ nl ++ block_tf))) = 1%nat /\
  _parse_short_answer (lit block_sa) = [] /\
  length (_parse_short_answer (lit (preamble ++ nl ++ block_sa))) = 1%nat.
Proof. vm_compute. repeat split; reflexivity. Qed.

End Parser.

(** ** Short answers: the two paths *)

Section ShortAnswerPaths.
Import Main Spec Examples.







Lemma remove_dups_length (l : list text) : (length (remove_dups l) <= length l)%nat.
Proof.
  induction l as [|x l IH]; simpl; [lia|].
  destruct (decide_rel elem_of x l); simpl; lia.
Qed.

Lemma split_ws_aux_length s : forall cur,
  (length (split_ws_aux s cur) <= length s + length cur)%nat.
Proof.
  induction s as [|c s IH]; intros cur; simpl.
  - destruct cur; simpl; lia.
  - destruct (is_space c).
    + destruct cur; simpl; pose proof (IH []); simpl in *; lia.
    + pose proof (IH (c :: cur)). simpl in *. lia.
Qed.

Lemma words_length s : (length (words s) <= length s)%nat.
Proof.
  unfold words. pose proof (remove_dups_length (split_ws (lower s))).
  pose proof (split_ws_aux_length (lower s) []). unfold split_ws in *.
  rewrite lower_length in *. simpl in *. lia.
Qed.



Lemma sample_words_words sample : sample_words (strip (lower sample)) = words sample.
Proof. unfold sample_words, words, set_of. rewrite split_ws_strip. reflexivity. Qed.

Lemma overlap_shared sample s :
  overlap (strip (lower sample)) (strip (lower s)) = length (shared sample s).
Proof.
  unfold overlap, shared, intersection. rewrite sample_words_words.
  unfold set_of, words. rewrite split_ws_strip. reflexivity.
Qed.


(** The word test of the grader is the word-overlap path. *)
Lemma overlap_test_path sample s :
  Z.of_nat (length sample) < 2 ^ 49 ->
  Float64.int_ge (Z.of_nat (overlap (strip (lower sample)) (strip (lower s))))
    (Float64.mul
       (Float64.of_int (Z.of_nat (length (sample_words (strip (lower sample))))))
       Float64.f0_2)
  = word_overlap_path sample s.
Proof.
  intros Hb. rewrite overlap_shared, sample_words_words.
  pose proof (words_length sample).
  rewrite ge_0_2 by lia.
  unfold word_overlap_path. apply eq_true_iff_eq. rewrite Z.leb_le, Nat.leb_le. lia.
Qed.




(** The sample answer quoted in the specification has six words; its
    threshold is 1.2, that of seven words is 1.4: in both cases two shared
    words are enough and one is not. *)
Example six_words_boundary :
  length (words sample_mito) = 6%nat /\
  length (shared sample_mito (lit "Energy comes from the food")) = 2%nat /\
  grade_short_answer sample_mito [] (AStr (lit "Energy comes from the food")) = true /\
  length (shared sample_mito (lit "Energy comes from food")) = 1%nat /\
  grade_short_answer sample_mito [] (AStr (lit "Energy comes from food")) = false.
Proof. vm_compute. repeat split; reflexivity. Qed.

Example seven_words_boundary :
  length (words sample_seven) = 7%nat /\
  length (shared sample_seven (lit "Energy comes from the food")) = 2%nat /\
  grade_short_answer sample_seven [] (AStr (lit "Energy comes from the food")) = true /\
  length (shared sample_seven (lit "Energy comes from food")) = 1%nat /\
  grade_short_answer sample_seven [] (AStr (lit "Energy comes from food")) = false.
Proof. vm_compute. repeat split; reflexivity. Qed.


(** Key points without fragments never satisfy the key-point test. *)
Lemma has_key_points_nil u : has_key_points [] u = false.
Proof. reflexivity. Qed.




End ShortAnswerPaths.

(** * Further properties of the code *)

(** ** Trimming and case *)

Section MoreStrings.





Lemma text_eqb_false a b : a <> b -> text_eqb a b = false.
Proof. intros H. apply not_true_is_false. rewrite text_eqb_eq. exact H. Qed.

Lemma text_eqb_refl a : text_eqb a a = true.
Proof. apply text_eqb_eq. reflexivity. Qed.

End MoreStrings.

(** ** Grading: blank answers, the sample answer, case and white space *)

Section MoreGrading.
Import Main Run ExamGenerator Generate Examples.

Lemma is_correct_blank q :
  (forall t o c e, q = multiple_choice t o c e -> length c = 1%nat) ->
  is_correct q ANone = false.
Proof.
  destruct q as [t o c e|t c e|t sa kp]; intros H; cbn [is_correct].
  - specialize (H t o c e eq_refl). unfold grade_multiple_choice.
    apply text_eqb_false. intros E. apply (f_equal (@length N)) in E.
    unfold upper in E. rewrite !length_map, H in E. vm_compute in E. discriminate.
  - destruct c; vm_compute; reflexivity.
  - reflexivity.
Qed.

Lemma is_correct_parsed q : parsed q -> is_correct q ANone = false.
Proof.
  intros [s Hs]. apply is_correct_blank. intros t o c e ->.
  destruct Hs as [Hs|[Hs|Hs]].
  - destruct (parse_multiple_choice_shape s _ Hs) as (t' & o' & c' & e' & E & _ & _ & _ & Hc).
    injection E as -> -> -> ->. exact Hc.
  - unfold _parse_true_false, collect in Hs.
    apply list_elem_of_omap in Hs as (sec & _ & Hsec).
    destruct (tf_section sec) as [r|] eqn:E; [|discriminate]. subst r.
    unfold tf_section in E.
    destruct (fst _); [|discriminate].
    destruct (negb _); discriminate.
  - unfold _parse_short_answer, collect in Hs.
    apply list_elem_of_omap in Hs as (sec & _ & Hsec).
    destruct (sa_section sec) as [r|] eqn:E; [|discriminate]. subst r.
    unfold sa_section in E.
    destruct (_ && _); discriminate.
Qed.

(** X1. A question left without an answer is never graded correct: for
    every record one of the three parsers returns, the grade of an absent
    (or null) answer is incorrect. *)
Theorem blank_answer_never_correct (q : question) :
  parsed q -> is_correct q ANone = false.
Proof. apply is_correct_parsed. Qed.

Lemma blank_answer_never_correct_witness :
  parsed (true_false (lit "Mitochondria have their own DNA.") true
                     (lit "A small circular genome.")) /\
  is_correct (true_false (lit "Mitochondria have their own DNA.") true
                         (lit "A small circular genome.")) ANone = false.
Proof.
  assert (H : parsed (true_false (lit "Mitochondria have their own DNA.") true
                                 (lit "A small circular genome."))).
  { exists (lit (preamble ++ nl ++ block_tf)). right; left.
    assert (E : _parse_true_false (lit (preamble ++ nl ++ block_tf)) =
                [true_false (lit "Mitochondria have their own DNA.") true
                            (lit "A small circular genome.")])
      by (vm_compute; reflexivity).
    rewrite E. left. }
  split; [exact H|]. exact (blank_answer_never_correct _ H).
Defined.


(** *** The loop over the questions *)

Lemma grade_from_lookup qs ua : forall idx rs cc,
  exists new,
    grade_from idx qs ua rs cc = (rs ++ new, cc + Z.of_nat (length (flagged new))) /\
    length new = length qs /\
    forall i q, qs !! i = Some q ->
      new !! i = Some (result_of (idx + i) q (default ANone (ua !! str_index (idx + i)))).
Proof.
  induction qs as [|q qs IH]; intros idx rs cc; cbn [grade_from].
  - exists []. rewrite app_nil_r. simpl. rewrite Z.add_0_r.
    split; [reflexivity|]. split; [reflexivity|]. intros i q H. destruct i; discriminate.
  - set (r := result_of idx q (default ANone (ua !! str_index idx))).
    destruct (IH (S idx) (rs ++ [r])
                (if Result.correct r then cc + 1 else cc)) as (new & -> & Hlen & Hnew).
    exists (r :: new). rewrite <- app_assoc. simpl. split; [|split; [lia|]].
    + f_equal. unfold flagged. rewrite filter_cons.
      destruct (Result.correct r) eqn:Hr.
      * rewrite decide_True by reflexivity. cbn [length]. fold (flagged new).
        subst r. cbn [Result.correct result_of] in Hr. rewrite Hr. lia.
      * rewrite decide_False by discriminate. fold (flagged new).
        subst r. cbn [Result.correct result_of] in Hr. rewrite Hr. lia.
    + intros [|i] q' H; simpl in H.
      * injection H as <-. rewrite Nat.add_0_r. reflexivity.
      * change ((r :: new) !! S i) with (new !! i).
        rewrite (Hnew i q' H). simpl. rewrite <- plus_n_Sm. reflexivity.
Qed.

(** X2. The results of a submission are one per question, in the order
    of the questions; the result at position [i] grades the question at
    position [i] against the entry of the submission under the key that is
    the decimal writing of [i], an absent entry counting as no answer, and
    the count of correct answers is the number of results flagged correct.
    The entries under any other key have no effect. *)
Theorem grade_by_position (qs : list question) (ua : gmap string answer) :
  exists rs,
    grade qs ua = (rs, Z.of_nat (length (flagged rs))) /\
    length rs = length qs /\
    (forall i q, qs !! i = Some q ->
       rs !! i = Some (result_of i q (default ANone (ua !! str_index i)))) /\
    (forall ua', (forall i, (i < length qs)%nat -> ua' !! str_index i = ua !! str_index i) ->
       grade qs ua' = grade qs ua).
Proof.
  destruct (grade_from_lookup qs ua 0 [] 0) as (rs & Hg & Hlen & Hrs).
  exists rs. unfold grade. split; [exact Hg|]. split; [exact Hlen|].
  split; [exact Hrs|].
  intros ua' Hua.
  destruct (grade_from_lookup qs ua' 0 [] 0) as (rs' & Hg' & Hlen' & Hrs').
  rewrite Hg, Hg'. simpl.
  assert (E : rs' = rs).
  { apply list_eq. intros i. destruct (qs !! i) as [q|] eqn:Hq.
    - rewrite (Hrs i q Hq), (Hrs' i q Hq). simpl.
      rewrite Hua by (apply lookup_lt_Some in Hq; exact Hq). reflexivity.
    - apply lookup_ge_None in Hq.
      rewrite (proj2 (lookup_ge_None rs i)), (proj2 (lookup_ge_None rs' i)) by lia.
      reflexivity. }
  rewrite E. reflexivity.
Qed.

(** *** A submission without answers *)

Lemma percentage_of_zero t : 0 <= t < 2 ^ 53 -> percentage_of 0 t = Some 0.
Proof.
  intros Ht. unfold percentage_of. destruct (0 <? t) eqn:Hpos; [|reflexivity].
  apply Z.ltb_lt in Hpos. destruct t as [|pt|pt]; try lia.
  destruct (of_int_pos pt ltac:(lia)) as (m & e & -> & _ & _).
  reflexivity.
Qed.

Lemma flagged_none rs :
  Forall (fun r => Result.correct r = false) rs -> flagged rs = [].
Proof.
  induction 1 as [|r rs Hr _ IH]; [reflexivity|].
  unfold flagged. rewrite filter_cons_False by congruence. exact IH.
Qed.

(** X3. A submission that holds no answer for any question of a stored
    exam whose questions come from the parsers is accepted and scores
    nothing: every result is flagged incorrect, the score is 0 and the
    percentage is 0. *)
Theorem blank_submission_scores_zero now exam_id answers files exam_data questions old :
  files !! file_name exam_id = Some exam_data ->
  exam_data !! "questions" = Some (VQuestions questions) ->
  attempts_of exam_data = Some old ->
  Z.of_nat (length questions) < 2 ^ 53 ->
  Forall parsed questions ->
  (forall i, (i < length questions)%nat ->
     default ∅ (answers !! "answers") !! str_index i = None) ->
  exists resp files',
    submit_exam now exam_id answers files = inr (resp, files') /\
    length (Response.results resp) = length questions /\
    Forall (fun r => Result.correct r = false) (Response.results resp) /\
    Response.score resp = 0 /\
    Response.percentage resp = 0.
Proof.
  intros Hf Hq Ha Hlen Hp Hblank.
  destruct (submit_exam_ok now exam_id answers files exam_data questions old
              Hf Hq Ha Hlen) as (rs & p & Hg & Hrs & Hpct & Hs).
  cbv zeta in Hs. eexists _, _. split; [exact Hs|].
  cbn [Response.results Response.score Response.percentage].
  destruct (grade_from_lookup questions (default ∅ (answers !! "answers")) 0 [] 0)
    as (rs' & Hg' & _ & Hrs').
  unfold grade in Hg. rewrite Hg' in Hg. simpl in Hg. injection Hg as -> _.
  assert (Hall : Forall (fun r => Result.correct r = false) rs).
  { apply Forall_lookup. intros i r Hr.
    destruct (questions !! i) as [q|] eqn:Hqi.
    - rewrite (Hrs' i q Hqi) in Hr. injection Hr as <-. simpl.
      rewrite Hblank by (apply lookup_lt_Some in Hqi; exact Hqi). simpl.
      apply is_correct_parsed. apply (proj1 (Forall_lookup _ _) Hp i q Hqi).
    - apply lookup_ge_None in Hqi. apply lookup_lt_Some in Hr. lia. }
  split; [exact Hrs|]. split; [exact Hall|].
  unfold percentage_for, grade in Hpct. rewrite Hg' in Hpct. cbn [snd] in Hpct.
  rewrite (flagged_none rs Hall) in *. simpl in Hpct.
  rewrite percentage_of_zero in Hpct by lia.
  split; [reflexivity|congruence].
Qed.


Lemma blank_submission_scores_zero_witness :
  files9 !! file_name "CS101_exam_20260101_120000_ab12cd34" = Some exam9 /\
  exam9 !! "questions" = Some (VQuestions questions9) /\
  attempts_of exam9 = Some [] /\
  Z.of_nat (length questions9) < 2 ^ 53 /\
  Forall parsed questions9 /\
  (forall i, (i < length questions9)%nat ->
     default ∅ ((∅ : gmap string (gmap string answer)) !! "answers") !! str_index i = None) /\
  exists resp files',
    submit_exam now1 "CS101_exam_20260101_120000_ab12cd34" ∅ files9 = inr (resp, files') /\
    length (Response.results resp) = length questions9 /\
    Forall (fun r => Result.correct r = false) (Response.results resp) /\
    Response.score resp = 0 /\
    Response.percentage resp = 0.
Proof.
  assert (H1 : files9 !! file_name "CS101_exam_20260101_120000_ab12cd34" = Some exam9)
    by reflexivity.
  assert (H2 : exam9 !! "questions" = Some (VQuestions questions9)) by reflexivity.
  assert (H3 : attempts_of exam9 = Some []) by reflexivity.
  assert (H4 : Z.of_nat (length questions9) < 2 ^ 53) by (vm_compute; reflexivity).
  assert (H5 : Forall parsed questions9).
  { apply Forall_replicate.
    exists (lit (nl ++ "Q: Water boils at 100 C at sea level" ++ nl ++ "ANSWER: TRUE"
                 ++ nl ++ "EXPLANATION: Standard pressure")).
    right; left.
    assert (E : _parse_true_false
                  (lit (nl ++ "Q: Water boils at 100 C at sea level" ++ nl ++ "ANSWER: TRUE"
                        ++ nl ++ "EXPLANATION: Standard pressure")) =
                [true_false (lit "Water boils at 100 C at sea level") true
                            (lit "Standard pressure")])
      by (vm_compute; reflexivity).
    rewrite E. left. }
  assert (H6 : forall i, (i < length questions9)%nat ->
     default ∅ ((∅ : gmap string (gmap string answer)) !! "answers") !! str_index i = None).
  { intros i _. rewrite lookup_empty. simpl. apply lookup_empty. }
  split; [exact H1|]. split; [exact H2|]. split; [exact H3|]. split; [exact H4|].
  split; [exact H5|]. split; [exact H6|].
  exact (blank_submission_scores_zero now1 "CS101_exam_20260101_120000_ab12cd34" ∅
           files9 exam9 questions9 [] H1 H2 H3 H4 H5 H6).
Defined.

(** *** Short answers: the sample answer, case and margins *)

Lemma filter_all {A} (P : A -> Prop) `{!forall x, Decision (P x)} (l : list A) :
  (forall x, x ∈ l -> P x) -> filter P l = l.
Proof.
  induction l as [|x l IH]; intros Hl; [reflexivity|].
  rewrite filter_cons_True by (apply Hl; left).
  f_equal. apply IH. intros y Hy. apply Hl. right. exact Hy.
Qed.

(** X4. Submitting the sample answer itself is graded correct, as soon as
    it has the 10 characters the grader asks of an answer (counted without
    the white space around it). *)
Theorem sample_answer_is_correct (sample_answer key_points : text) :
  (10 <= length (strip sample_answer))%nat ->
  Z.of_nat (length sample_answer) < 2 ^ 49 ->
  grade_short_answer sample_answer key_points (AStr sample_answer) = true.
Proof.
  intros Hlen Hb. unfold grade_short_answer. cbn [truthy str].
  assert (Hne : sample_answer <> []).
  { intros ->. simpl in Hlen. lia. }
  rewrite (text_eqb_false _ _ Hne). cbn [negb andb].
  replace (length (strip (lower sample_answer)) <? 10)%nat with false.
  2: { symmetry. apply Nat.ltb_ge. rewrite strip_lower, lower_length. exact Hlen. }
  rewrite overlap_test_path by exact Hb.
  unfold Spec.word_overlap_path, Spec.shared.
  rewrite filter_all by auto.
  replace (length (Spec.words sample_answer) <=? 5 * length (Spec.words sample_answer))%nat
    with true by (symmetry; apply Nat.leb_le; lia).
  reflexivity.
Qed.

Lemma sample_answer_is_correct_witness :
  (10 <= length (strip sample_mito))%nat /\
  Z.of_nat (length sample_mito) < 2 ^ 49 /\
  grade_short_answer sample_mito (lit "mitochondria, respiration, ATP")
    (AStr sample_mito) = true.
Proof.
  assert (H1 : (10 <= length (strip sample_mito))%nat) by (vm_compute; lia).
  assert (H2 : Z.of_nat (length sample_mito) < 2 ^ 49) by (vm_compute; reflexivity).
  split; [exact H1|]. split; [exact H2|].
  exact (sample_answer_is_correct sample_mito (lit "mitochondria, respiration, ATP") H1 H2).
Defined.




End MoreGrading.

(** ** The attempt history: resetting *)

Section MoreHistory.
Import Main Run Examples.

Lemma reset_record_insert (e : gmap string value) a b c d :
  <["last_attempt" := VNone]>
    (<["attempt_count" := VInt 0]>
       (<["best_score" := VNone]>
          (<["attempts" := VAttempts []]>
             (<["last_attempt" := a]>
                (<["attempt_count" := b]>
                   (<["best_score" := c]>
                      (<["attempts" := d]> e))))))) =
  <["last_attempt" := VNone]>
    (<["attempt_count" := VInt 0]>
       (<["best_score" := VNone]>
          (<["attempts" := VAttempts []]> e))).
Proof.
  apply map_eq. intros k.
  destruct (decide (k = "last_attempt"%string)) as [->|H1];
    [rewrite !lookup_insert_eq; reflexivity|].
  rewrite !(lookup_insert_ne _ "last_attempt"%string) by congruence.
  destruct (decide (k = "attempt_count"%string)) as [->|H2];
    [rewrite !lookup_insert_eq; reflexivity|].
  rewrite !(lookup_insert_ne _ "attempt_count"%string) by congruence.
  destruct (decide (k = "best_score"%string)) as [->|H3];
    [rewrite !lookup_insert_eq; reflexivity|].
  rewrite !(lookup_insert_ne _ "best_score"%string) by congruence.
  destruct (decide (k = "attempts"%string)) as [->|H4];
    [rewrite !lookup_insert_eq; reflexivity|].
  rewrite !lookup_insert_ne by congruence.
  reflexivity.
Qed.

(** X6. Resetting erases what submissions have left: resetting the
    attempts of an exam after a submission against it gives the directory
    that resetting before the submission gives, and resetting twice is
    resetting once. *)
Theorem reset_erases_submission now exam_id answers files resp files' :
  submit_exam now exam_id answers files = inr (resp, files') ->
  reset_exam_attempts exam_id files' = reset_exam_attempts exam_id files /\
  (forall files1, reset_exam_attempts exam_id files = inr files1 ->
     reset_exam_attempts exam_id files1 = inr files1).
Proof.
  intros Hs. unfold submit_exam in Hs.
  destruct (files !! file_name exam_id) as [e|] eqn:Hf; [|discriminate].
  destruct (e !! "questions") as [[| | | | |qs|]|]; try discriminate.
  destruct (grade qs (default ∅ (answers !! "answers"))) as [rs cc].
  destruct (percentage_of cc (Z.of_nat (length qs))) as [p|]; [|discriminate].
  destruct (attempts_of e) as [old|]; [|discriminate].
  injection Hs as _ <-. split.
  - unfold reset_exam_attempts. rewrite lookup_insert_eq, Hf.
    rewrite insert_insert_eq, reset_record_insert. reflexivity.
  - intros files1. unfold reset_exam_attempts. rewrite Hf. intros [= <-].
    rewrite lookup_insert_eq, insert_insert_eq, reset_record_insert. reflexivity.
Qed.

Lemma reset_erases_submission_witness :
  exists resp files',
    submit_exam now1 "CS101_exam_20260101_120000_ab12cd34" (body9 7) files9
      = inr (resp, files') /\
    reset_exam_attempts "CS101_exam_20260101_120000_ab12cd34" files' =
      reset_exam_attempts "CS101_exam_20260101_120000_ab12cd34" files9 /\
    (forall files1,
       reset_exam_attempts "CS101_exam_20260101_120000_ab12cd34" files9 = inr files1 ->
       reset_exam_attempts "CS101_exam_20260101_120000_ab12cd34" files1 = inr files1).
Proof.
  destruct (submit_exam now1 "CS101_exam_20260101_120000_ab12cd34" (body9 7) files9)
    as [err|[resp files']] eqn:E.
  - exfalso. vm_compute in E. discriminate E.
  - exists resp, files'. split; [reflexivity|].
    exact (reset_erases_submission now1 "CS101_exam_20260101_120000_ab12cd34" (body9 7)
             files9 resp files' E).
Defined.

(** X7. After a reset the next submission starts a new history, whatever
    the record held before under the keys of the history: it is attempt
    number 1, its percentage is the best score, it is not flagged as an
    improvement, and it is the only attempt stored. *)
Theorem submit_after_reset now exam_id answers files exam_data questions :
  files !! file_name exam_id = Some exam_data ->
  exam_data !! "questions" = Some (VQuestions questions) ->
  Z.of_nat (length questions) < 2 ^ 53 ->
  exists files1 resp files2 e2 a,
    reset_exam_attempts exam_id files = inr files1 /\
    submit_exam now exam_id answers files1 = inr (resp, files2) /\
    Response.attempt_number resp = 1 /\
    percentage_for questions answers = Some (Response.percentage resp) /\
    Response.best_score resp = Response.percentage resp /\
    Response.improved resp = false /\
    files2 !! file_name exam_id = Some e2 /\
    e2 !! "attempts" = Some (VAttempts [a]) /\
    Attempt.percentage a = Response.percentage resp /\
    Attempt.timestamp a = now /\
    e2 !! "best_score" = Some (VInt (Response.percentage resp)) /\
    e2 !! "attempt_count" = Some (VInt 1).
Proof.
  intros Hf Hq Hlen.
  destruct (reset_exam_attempts_spec exam_id files exam_data Hf)
    as (e1 & Hr & Hatt & _ & _ & _ & Hframe).
  assert (Hq1 : e1 !! "questions" = Some (VQuestions questions)).
  { rewrite Hframe; [exact Hq|]. unfold history_keys. intros Hin.
    repeat (apply elem_of_cons in Hin as [Hin|Hin]; [discriminate|]).
    inversion Hin. }
  destruct (submit_exam_record now exam_id answers (<[file_name exam_id := e1]> files)
              e1 questions [] (lookup_insert_eq _ _ _) Hq1
              (attempts_of_lookup _ _ Hatt) Hlen)
    as (resp & files2 & e2 & a & Hs & -> & Hp & Ht & Hrp & Hb & Hn & Hi & Ha2 & Hb2 & Hc2 & _).
  exists (<[file_name exam_id := e1]> files), resp, (<[file_name exam_id := e2]>
    (<[file_name exam_id := e1]> files)), e2, a.
  assert (Hbest : Response.best_score resp = Response.percentage resp).
  { rewrite Hb, Hrp. reflexivity. }
  split; [exact Hr|]. split; [exact Hs|]. split; [exact Hn|].
  split; [rewrite Hrp; exact Hp|]. split; [exact Hbest|].
  split; [rewrite Hi; reflexivity|].
  split; [apply lookup_insert_eq|]. split; [exact Ha2|].
  split; [symmetry; exact Hrp|]. split; [exact Ht|].
  split; [rewrite <- Hbest; exact Hb2|]. exact Hc2.
Qed.

End MoreHistory.

(** ** The exam endpoints: identifiers, reading and deleting *)

Section MoreEndpoints.
Import Main Run Examples Examples2 Builtins Endpoints.

Lemma substring_all (b : string) : substring 0 (String.length b) b = b.
Proof. induction b as [|c b IH]; [reflexivity|]. simpl. rewrite IH. reflexivity. Qed.

Lemma substring_append (a b : string) :
  substring (String.length a) (String.length b) (a ++ b) = b.
Proof. induction a as [|c a IH]; [apply substring_all|exact IH]. Qed.

Lemma length_append (a b : string) :
  String.length (a ++ b) = (String.length a + String.length b)%nat.
Proof. induction a as [|c a IH]; [reflexivity|]. simpl. rewrite IH. reflexivity. Qed.

Lemma file_name_json (a : string) : file_name (a ++ ".json") = (a ++ ".json")%string.
Proof.
  unfold file_name. rewrite length_append.
  replace (String.length a + String.length ".json" - 5)%nat
    with (String.length a) by (simpl; lia).
  change 5%nat with (String.length ".json") at 1.
  rewrite substring_append. reflexivity.
Qed.

Lemma file_name_idem exam_id : file_name (file_name exam_id) = file_name exam_id.
Proof.
  destruct (String.eqb (substring (String.length exam_id - 5) 5 exam_id) ".json") eqn:E.
  - assert (H : file_name exam_id = exam_id) by (unfold file_name; rewrite E; reflexivity).
    rewrite !H. reflexivity.
  - assert (H : file_name exam_id = (exam_id ++ ".json")%string)
      by (unfold file_name; rewrite E; reflexivity).
    rewrite H. apply file_name_json.
Qed.

(** X8. An exam is addressed alike with and without the extension
    [.json]: the name of its file always ends in the extension, once, and
    every exam endpoint gives the same answer for the identifier and for
    the name of the file. *)
Theorem exam_id_extension (exam_id : string) :
  file_name (file_name exam_id) = file_name exam_id /\
  (exists stem, file_name exam_id = (stem ++ ".json")%string) /\
  file_name (exam_id ++ ".json") = (exam_id ++ ".json")%string /\
  (forall now answers files,
     submit_exam now (file_name exam_id) answers files =
     submit_exam now exam_id answers files) /\
  (forall files,
     reset_exam_attempts (file_name exam_id) files = reset_exam_attempts exam_id files /\
     get_exam (file_name exam_id) files = get_exam exam_id files /\
     get_exam_attempts (file_name exam_id) files = get_exam_attempts exam_id files /\
     delete_exam (file_name exam_id) files = delete_exam exam_id files).
Proof.
  split; [apply file_name_idem|]. split; [|split; [apply file_name_json|]].
  - unfold file_name. destruct (String.eqb _ ".json") eqn:E.
    + apply String.eqb_eq in E.
      exists (substring 0 (String.length exam_id - 5) exam_id).
      assert (G : forall n (s : string),
                (substring 0 n s ++ substring n (String.length s - n) s)%string = s).
      { induction n as [|n IH]; intros s.
        - simpl. rewrite Nat.sub_0_r. destruct s; [reflexivity|].
          simpl. rewrite substring_all. reflexivity.
        - destruct s as [|c s]; [reflexivity|].
          transitivity (String c (substring 0 n s ++ substring n (String.length s - n) s));
            [reflexivity|f_equal; apply IH]. }
      destruct (le_lt_dec 5 (String.length exam_id)) as [Hl|Hl].
      * rewrite <- E.
        rewrite <- (G (String.length exam_id - 5)%nat exam_id) at 1.
        replace (String.length exam_id - (String.length exam_id - 5))%nat with 5%nat by lia.
        reflexivity.
      * exfalso.
        assert (G5 : forall s : string, (String.length s < 5)%nat ->
                  substring 0 5 s = s).
        { intros s Hs. do 5 (destruct s as [|? s]; [reflexivity|]). simpl in Hs. lia. }
        replace (String.length exam_id - 5)%nat with 0%nat in E by lia.
        rewrite (G5 exam_id Hl) in E. rewrite E in Hl. simpl in Hl. lia.
    + exists exam_id. reflexivity.
  - split.
    + intros now answers files. unfold submit_exam. rewrite file_name_idem. reflexivity.
    + intros files.
      unfold reset_exam_attempts, get_exam, get_exam_attempts, delete_exam, delete_exam_try.
      rewrite file_name_idem. repeat split; reflexivity.
Qed.

(** X9. Deleting an exam that is not stored answers 500 and never 404:
    the 404 raised for the missing file is caught by the general handler.
    Deleting a stored exam removes its file and no other; afterwards the
    exam is not found by the endpoints that read it (404), and deleting it
    again answers 500. *)
Theorem delete_exam_outcome (exam_id : string) (files : gmap string (gmap string value)) :
  delete_exam exam_id files <> inl Http404 /\
  (files !! file_name exam_id = None -> delete_exam exam_id files = inl Http500) /\
  (is_Some (files !! file_name exam_id) ->
   exists files',
     delete_exam exam_id files = inr files' /\
     files' !! file_name exam_id = None /\
     (forall k, k <> file_name exam_id -> files' !! k = files !! k) /\
     get_exam exam_id files' = inl Http404 /\
     get_exam_attempts exam_id files' = inl Http404 /\
     (forall now answers, submit_exam now exam_id answers files' = inl Http404) /\
     reset_exam_attempts exam_id files' = inl Http404 /\
     delete_exam exam_id files' = inl Http500).
Proof.
  unfold delete_exam, delete_exam_try.
  split; [|split].
  - destruct (files !! file_name exam_id); discriminate.
  - intros ->. reflexivity.
  - intros [e He]. rewrite He. eexists. split; [reflexivity|].
    assert (Hd : delete (file_name exam_id) files !! file_name exam_id = None)
      by apply lookup_delete_eq.
    split; [exact Hd|].
    split; [intros k Hk; apply lookup_delete_ne; congruence|].
    unfold get_exam, get_exam_attempts, load_exam, submit_exam, reset_exam_attempts.
    rewrite Hd. repeat split; reflexivity.
Qed.


Lemma submit_after_reset_witness :
  files9 !! file_name "CS101_exam_20260101_120000_ab12cd34" = Some exam9 /\
  exam9 !! "questions" = Some (VQuestions questions9) /\
  Z.of_nat (length questions9) < 2 ^ 53 /\
  exists files1 resp files2 e2 a,
    reset_exam_attempts "CS101_exam_20260101_120000_ab12cd34" files9 = inr files1 /\
    submit_exam now1 "CS101_exam_20260101_120000_ab12cd34" (body9 7) files1
      = inr (resp, files2) /\
    Response.attempt_number resp = 1 /\
    percentage_for questions9 (body9 7) = Some (Response.percentage resp) /\
    Response.best_score resp = Response.percentage resp /\
    Response.improved resp = false /\
    files2 !! file_name "CS101_exam_20260101_120000_ab12cd34" = Some e2 /\
    e2 !! "attempts" = Some (VAttempts [a]) /\
    Attempt.percentage a = Response.percentage resp /\
    Attempt.timestamp a = now1 /\
    e2 !! "best_score" = Some (VInt (Response.percentage resp)) /\
    e2 !! "attempt_count" = Some (VInt 1).
Proof.
  assert (H1 : files9 !! file_name "CS101_exam_20260101_120000_ab12cd34" = Some exam9)
    by reflexivity.
  assert (H2 : exam9 !! "questions" = Some (VQuestions questions9)) by reflexivity.
  assert (H3 : Z.of_nat (length questions9) < 2 ^ 53) by (vm_compute; reflexivity).
  split; [exact H1|]. split; [exact H2|]. split; [exact H3|].
  exact (submit_after_reset now1 "CS101_exam_20260101_120000_ab12cd34" (body9 7)
           files9 exam9 questions9 H1 H2 H3).
Defined.

(** *** The list of the attempts, sorted *)

Lemma text_ltb_irrefl a : text_ltb a a = false.
Proof.
  induction a as [|x a IH]; [reflexivity|]. simpl.
  rewrite N.ltb_irrefl, N.eqb_refl, IH. reflexivity.
Qed.

Lemma text_ltb_asym a : forall b, text_ltb a b = true -> text_ltb b a = false.
Proof.
  induction a as [|x a IH]; intros [|y b]; simpl; try reflexivity; try discriminate.
  intros H. apply orb_true_iff in H as [H|H].
  - apply N.ltb_lt in H.
    replace (y <? x)%N with false by (symmetry; apply N.ltb_ge; lia).
    replace (y =? x)%N with false by (symmetry; apply N.eqb_neq; lia). reflexivity.
  - apply andb_prop in H as [E H]. apply N.eqb_eq in E. subst y.
    rewrite N.ltb_irrefl, N.eqb_refl, (IH b H). reflexivity.
Qed.

Lemma text_ge_trans a : forall b c,
  text_ltb a b = false -> text_ltb b c = false -> text_ltb a c = false.
Proof.
  induction a as [|x a IH]; intros b c Hab Hbc.
  - destruct b as [|y b]; [|discriminate]. destruct c; [reflexivity|discriminate].
  - destruct c as [|z c]; [reflexivity|].
    destruct b as [|y b]; [discriminate|]. simpl in *.
    apply orb_false_iff in Hab as [H1 H2], Hbc as [H3 H4].
    apply N.ltb_ge in H1, H3.
    apply orb_false_iff. split; [apply N.ltb_ge; lia|].
    destruct (x =? z)%N eqn:E; [|reflexivity]. apply N.eqb_eq in E. subst z.
    assert (y = x) by lia. subst y. rewrite N.eqb_refl in H2, H4. simpl in *.
    apply (IH b c H2 H4).
Qed.

Lemma insert_desc_perm {A} (key : A -> text) x l : insert_desc key x l ≡ₚ x :: l.
Proof.
  induction l as [|y l IH]; simpl; [reflexivity|].
  destruct (text_ltb (key x) (key y)); [|reflexivity].
  rewrite IH. apply Permutation_swap.
Qed.

Lemma sorted_desc_perm {A} (key : A -> text) l : sorted_desc key l ≡ₚ l.
Proof.
  induction l as [|x l IH]; [reflexivity|].
  unfold sorted_desc in *. simpl. rewrite insert_desc_perm, IH. reflexivity.
Qed.

Lemma insert_desc_sorted {A} (key : A -> text) x l :
  StronglySorted (ge_key key) l -> StronglySorted (ge_key key) (insert_desc key x l).
Proof.
  induction 1 as [|y l Hs IH Hy]; simpl; [repeat constructor|].
  destruct (text_ltb (key x) (key y)) eqn:E.
  - constructor; [exact IH|].
    rewrite insert_desc_perm. constructor; [|exact Hy].
    apply text_ltb_asym. exact E.
  - constructor; [constructor; assumption|].
    constructor; [exact E|].
    eapply Forall_impl; [exact Hy|]. intros z Hz.
    apply (text_ge_trans _ (key y)); assumption.
Qed.

Lemma sorted_desc_sorted {A} (key : A -> text) l :
  StronglySorted (ge_key key) (sorted_desc key l).
Proof.
  induction l as [|x l IH]; [constructor|].
  unfold sorted_desc in *. simpl. apply insert_desc_sorted. exact IH.
Qed.

Lemma insert_desc_stable {A} (key : A -> text) (t : text) x l :
  filter (fun a => key a = t) (insert_desc key x l) =
  filter (fun a => key a = t) (x :: l).
Proof.
  induction l as [|y l IH]; simpl; [reflexivity|].
  destruct (text_ltb (key x) (key y)) eqn:E; [|reflexivity].
  rewrite (filter_cons _ y), IH, !(filter_cons _ x), (filter_cons _ y).
  destruct (decide (key x = t)) as [Hx|Hx]; [|reflexivity].
  destruct (decide (key y = t)) as [Hy|Hy]; [|reflexivity].
  rewrite Hx, Hy, text_ltb_irrefl in E. discriminate.
Qed.

Lemma sorted_desc_stable {A} (key : A -> text) (t : text) l :
  filter (fun a => key a = t) (sorted_desc key l) = filter (fun a => key a = t) l.
Proof.
  induction l as [|x l IH]; [reflexivity|].
  unfold sorted_desc in *. simpl. rewrite insert_desc_stable, !filter_cons, IH.
  reflexivity.
Qed.

Lemma insert_desc_last {A} (key : A -> text) x l :
  Forall (lt_key key x) l -> insert_desc key x l = l ++ [x].
Proof.
  induction 1 as [|y l Hy _ IH]; simpl; [reflexivity|].
  unfold lt_key in Hy. rewrite Hy, IH. reflexivity.
Qed.

Lemma sorted_desc_rev {A} (key : A -> text) l :
  StronglySorted (lt_key key) l -> sorted_desc key l = rev l.
Proof.
  induction 1 as [|x l _ IH Hx]; [reflexivity|].
  unfold sorted_desc in *. simpl. rewrite IH.
  apply insert_desc_last. apply Forall_rev. exact Hx.
Qed.

(** X10. The list of the attempts of a stored exam holds the attempts of
    the record, each once, sorted by time stamp from the latest to the
    earliest, attempts with the same time stamp staying in the order of
    the record; the count is the number of attempts. When the record holds
    them by increasing time stamp, the list is the record read backwards. *)
Theorem attempts_most_recent_first exam_id files exam_data old :
  files !! file_name exam_id = Some exam_data ->
  attempts_of exam_data = Some old ->
  exists r,
    get_exam_attempts exam_id files = inr r /\
    AttemptsResponse.attempts r ≡ₚ old /\
    StronglySorted (ge_key Attempt.timestamp) (AttemptsResponse.attempts r) /\
    (forall t, filter (fun a => Attempt.timestamp a = t) (AttemptsResponse.attempts r) =
               filter (fun a => Attempt.timestamp a = t) old) /\
    AttemptsResponse.attempt_count r = Z.of_nat (length old) /\
    AttemptsResponse.best_score r = get "best_score" exam_data /\
    (StronglySorted (lt_key Attempt.timestamp) old ->
     AttemptsResponse.attempts r = rev old).
Proof.
  intros Hf Ha. unfold get_exam_attempts, load_exam. rewrite Hf, Ha.
  eexists. split; [reflexivity|]. cbn.
  split; [apply sorted_desc_perm|]. split; [apply sorted_desc_sorted|].
  split; [intros t; apply sorted_desc_stable|]. split; [reflexivity|].
  split; [reflexivity|]. apply sorted_desc_rev.
Qed.


Lemma attempts_most_recent_first_witness :
  files9_taken !! file_name "CS101_exam_20260101_120000_ab12cd34" = Some exam9_taken /\
  attempts_of exam9_taken = Some attempts2 /\
  exists r,
    get_exam_attempts "CS101_exam_20260101_120000_ab12cd34" files9_taken = inr r /\
    AttemptsResponse.attempts r ≡ₚ attempts2 /\
    StronglySorted (ge_key Attempt.timestamp) (AttemptsResponse.attempts r) /\
    (forall t, filter (fun a => Attempt.timestamp a = t) (AttemptsResponse.attempts r) =
               filter (fun a => Attempt.timestamp a = t) attempts2) /\
    AttemptsResponse.attempt_count r = Z.of_nat (length attempts2) /\
    AttemptsResponse.best_score r = get "best_score" exam9_taken /\
    (StronglySorted (lt_key Attempt.timestamp) attempts2 ->
     AttemptsResponse.attempts r = rev attempts2).
Proof.
  assert (H1 : files9_taken !! file_name "CS101_exam_20260101_120000_ab12cd34"
               = Some exam9_taken) by reflexivity.
  assert (H2 : attempts_of exam9_taken = Some attempts2) by reflexivity.
  split; [exact H1|]. split; [exact H2|].
  exact (attempts_most_recent_first "CS101_exam_20260101_120000_ab12cd34" files9_taken
           exam9_taken attempts2 H1 H2).
Defined.

Lemma Forall2_Forall_transfer {A B} (R : A -> B -> Prop) (P : A -> Prop) (Q : B -> Prop)
    (l : list A) (l' : list B) :
  (forall a b, R a b -> P a -> Q b) -> Forall2 R l l' -> Forall P l -> Forall Q l'.
Proof.
  intros H. induction 1 as [|a b l l' Hab _ IH]; intros HP; [constructor|].
  inversion HP; subst. constructor; [eapply H; eassumption|apply IH; assumption].
Qed.

Lemma Forall2_rev_rev {A B} (R : A -> B -> Prop) l l' :
  Forall2 R l l' -> Forall2 R (rev l) (rev l').
Proof.
  induction 1 as [|a b l l' Hab _ IH]; [constructor|].
  simpl. apply Forall2_app; [exact IH|]. constructor; [exact Hab|constructor].
Qed.

Lemma sorted_times (subs : list (text * gmap string (gmap string answer))) new :
  Forall2 (fun sub a => Attempt.timestamp a = sub.1) subs new ->
  StronglySorted (fun s t => text_ltb s.1 t.1 = true) subs ->
  StronglySorted (lt_key Attempt.timestamp) new.
Proof.
  induction 1 as [|s a subs new Hsa Hall IH]; intros Hs; [constructor|].
  inversion Hs as [|? ? Hs' Hhd]; subst. constructor; [apply IH; exact Hs'|].
  eapply Forall2_Forall_transfer; [|exact Hall|exact Hhd].
  intros s' a' E H. unfold lt_key. rewrite Hsa, E. exact H.
Qed.

(** X11. After a run of submissions made at increasing times against an
    exam without attempts, the list of its attempts gives them from the
    last submission to the first, each with the time and the percentage of
    its submission, and counts as many attempts as submissions. *)
Theorem attempts_after_run exam_id files exam_data questions
    (subs : list (text * gmap string (gmap string answer))) :
  files !! file_name exam_id = Some exam_data ->
  exam_data !! "questions" = Some (VQuestions questions) ->
  attempts_of exam_data = Some [] ->
  Z.of_nat (length questions) < 2 ^ 53 ->
  StronglySorted (fun s t => text_ltb s.1 t.1 = true) subs ->
  exists files' r,
    submit_all exam_id subs files = inr files' /\
    get_exam_attempts exam_id files' = inr r /\
    Forall2 (fun sub a => percentage_for questions sub.2 = Some (Attempt.percentage a) /\
                          Attempt.timestamp a = sub.1)
            (rev subs) (AttemptsResponse.attempts r) /\
    AttemptsResponse.attempt_count r = Z.of_nat (length subs).
Proof.
  intros Hf Hq Ha Hlen Hs.
  destruct (submit_all_spec exam_id questions subs files exam_data [] Hf Hq Ha Hlen)
    as (files' & e' & new & Hrun & Hf' & _ & Ha' & Hall & _).
  simpl in Ha'.
  assert (Hnew : StronglySorted (lt_key Attempt.timestamp) new).
  { apply (sorted_times subs new); [|exact Hs].
    eapply Forall2_impl; [exact Hall|]. intros s a [_ H]. exact H. }
  exists files'. unfold get_exam_attempts, load_exam. rewrite Hf', Ha'.
  eexists. split; [exact Hrun|]. split; [reflexivity|]. cbn.
  rewrite (sorted_desc_rev _ _ Hnew).
  split; [apply Forall2_rev_rev; exact Hall|].
  rewrite (Forall2_length _ _ _ Hall). reflexivity.
Qed.

Lemma attempts_after_run_witness :
  files9 !! file_name "CS101_exam_20260101_120000_ab12cd34" = Some exam9 /\
  exam9 !! "questions" = Some (VQuestions questions9) /\
  attempts_of exam9 = Some [] /\
  Z.of_nat (length questions9) < 2 ^ 53 /\
  StronglySorted (fun s t => text_ltb s.1 t.1 = true)
    [(now1, body9 7); (now2, body9 4)] /\
  exists files' r,
    submit_all "CS101_exam_20260101_120000_ab12cd34"
      [(now1, body9 7); (now2, body9 4)] files9 = inr files' /\
    get_exam_attempts "CS101_exam_20260101_120000_ab12cd34" files' = inr r /\
    Forall2 (fun sub a => percentage_for questions9 sub.2 = Some (Attempt.percentage a) /\
                          Attempt.timestamp a = sub.1)
            (rev [(now1, body9 7); (now2, body9 4)]) (AttemptsResponse.attempts r) /\
    AttemptsResponse.attempt_count r =
      Z.of_nat (length [(now1, body9 7); (now2, body9 4)]).
Proof.
  assert (H1 : files9 !! file_name "CS101_exam_20260101_120000_ab12cd34" = Some exam9)
    by reflexivity.
  assert (H2 : exam9 !! "questions" = Some (VQuestions questions9)) by reflexivity.
  assert (H3 : attempts_of exam9 = Some []) by reflexivity.
  assert (H4 : Z.of_nat (length questions9) < 2 ^ 53) by (vm_compute; reflexivity).
  assert (H5 : StronglySorted (fun s t => text_ltb s.1 t.1 = true)
                 [(now1, body9 7); (now2, body9 4)]).
  { repeat constructor. }
  split; [exact H1|]. split; [exact H2|]. split; [exact H3|]. split; [exact H4|].
  split; [exact H5|].
  exact (attempts_after_run "CS101_exam_20260101_120000_ab12cd34" files9 exam9
           questions9 [(now1, body9 7); (now2, body9 4)] H1 H2 H3 H4 H5).
Defined.

End MoreEndpoints.

(** ** The parsers: what every record satisfies *)

Section MoreParser.
Import ExamGenerator Generate Examples Spec.

Lemma re_split_aux_count s : forall skip cur,
  (length (re_split_aux s skip cur) <= 1 + Builtins.count NL s)%nat.
Proof.
  induction s as [|c s IH]; intros skip cur; [simpl; lia|].
  cbn [re_split_aux Builtins.count].
  assert (Hle : forall k cur', (length (re_split_aux s k cur') <=
            1 + (if (c =? NL)%N then S (Builtins.count NL s)
                 else Builtins.count NL s))%nat).
  { intros k cur'. specialize (IH k cur'). destruct (c =? NL)%N; lia. }
  destruct skip as [|k]; [|apply Hle].
  destruct (c =? NL)%N eqn:E; [|apply Hle].
  destruct (marker_len s) as [n|]; [|apply Hle].
  specialize (IH n []). cbn [length]. lia.
Qed.

Lemma collect_le parse secs : (length (collect parse secs) <= length secs)%nat.
Proof.
  induction secs as [|b bs IH]; [simpl; lia|].
  rewrite collect_cons. destruct (parse b) as [[q|]|]; simpl; lia.
Qed.

Lemma sections_count s :
  (length (sections s) <= Builtins.count NL s)%nat.
Proof.
  unfold sections, re_split_Q. pose proof (re_split_aux_count s 0 []) as H.
  destruct (re_split_aux s 0 []); simpl in *; lia.
Qed.

Lemma count_0 c s : c ∉ s -> Builtins.count c s = 0%nat.
Proof.
  induction s as [|x s IH]; intros H; [reflexivity|].
  cbn [Builtins.count]. destruct (x =? c)%N eqn:E.
  - apply N.eqb_eq in E. subst. exfalso. apply H. left.
  - apply IH. intros Hc. apply H. right. exact Hc.
Qed.

(** X12. A parser returns at most as many records as the response has
    line breaks: a block only begins at a [Q:] that follows a line break.
    A response of a single line, and the empty response, give no record. *)
Theorem parsers_bounded_by_line_breaks (s : text) :
  let n := Builtins.count NL s in
  (length (_parse_multiple_choice s) <= n)%nat /\
  (length (_parse_true_false s) <= n)%nat /\
  (length (_parse_short_answer s) <= n)%nat /\
  (NL ∉ s ->
   _parse_multiple_choice s = [] /\ _parse_true_false s = [] /\
   _parse_short_answer s = []).
Proof.
  intros n. pose proof (sections_count s) as Hs. fold n in Hs.
  pose proof (collect_le mc_section (sections s)) as H1.
  pose proof (collect_le tf_section (sections s)) as H2.
  pose proof (collect_le sa_section (sections s)) as H3.
  fold (_parse_multiple_choice s) in H1. fold (_parse_true_false s) in H2.
  fold (_parse_short_answer s) in H3.
  split; [lia|]. split; [lia|]. split; [lia|].
  intros Hnl.
  assert (Hn : n = 0%nat) by (apply count_0; exact Hnl).
  repeat split; apply length_zero_iff_nil; lia.
Qed.

End MoreParser.
